(** * efficient-compression: checkpointing, DRR gradients and the byte dataset

    A shallow embedding of three source files of the repository, all under
    [compressing_transformers/src]:

    - [CheckpointHandler.py]   (module [CheckpointHandler])
    - [DistributedOptimizationProcedures/DrrProcedure.py]
                               (module [DrrProcedure])
    - [Datasets/Wiki40BDataset.py]   (module [Wiki40BDataset])

    together with the properties stated about them.

    Conventions of the embedding:
    - Python integers are [Z]; Python [bytes] are lists of [Byte.byte].
    - A call that may raise returns an [outcome]: [Returned v] or [Raised e].
    - Readings of [time.time()] are passed in as arguments.  They are
      floats, modelled by the rationals ([Q]) they denote; a difference of
      two readings is rounded as float subtraction rounds it, by a function
      [rnd] that the handler's methods take as a parameter.  Comparisons are
      exact, as they are in Python.
    - The file system is a finite map from paths to file contents; a write
      always succeeds.
    - [print] calls and progress bars have no effect on any value below and
      are left out. *)

From Stdlib Require Import ZArith QArith Qabs Qround Lqa Lia String Ascii.
From Corelib Require PrimFloat FloatOps SpecFloat.
From stdpp Require Import gmap strings list fin_maps.

(** ** Python exceptions and outcomes *)

(** The diagnostics of the three [assert] statements of [get_subset] and the
    one of [DrrTrainer.__init__]; the first two are f-strings that embed the
    sequence length, kept here as an argument. *)
Inductive assertion_message : Type :=
  | StartTokenNotMultiple (sequence_length : Z)
      (* f"Start token must be a multiple of the sequence length {sequence_length}" *)
  | EndTokenNotMultiple (sequence_length : Z)
      (* f"End token must be a multiple of the sequence length {sequence_length}" *)
  | StartNotSmallerThanEnd
      (* "Start token must be smaller than end token" *)
  | BetaMustBeFloat.
      (* "beta must be a float" *)

Inductive exn : Type :=
  | AssertionError (msg : assertion_message)
  | IndexError
  | ZeroDivisionError
  | KeyError (key : string)
  | TypeError
  | OverflowError
  | UnpicklingError.

Inductive outcome (A : Type) : Type :=
  | Returned (a : A)
  | Raised (e : exn).
Arguments Returned {A} a.
Arguments Raised {A} e.

Definition raises {A} (o : outcome A) : Prop :=
  match o with Raised _ => True | Returned _ => False end.

(** Sequencing: an exception ends the computation.  With these instances
    [x ← o; k] is stdpp's notation for it. *)
#[global] Instance outcome_ret : MRet outcome := λ A a, Returned a.
#[global] Instance outcome_bind : MBind outcome := λ A B k o,
  match o with Returned a => k a | Raised e => Raised e end.

(** [assert cond, msg] *)
Definition py_assert (cond : bool) (msg : assertion_message) : outcome unit :=
  if cond then Returned tt else Raised (AssertionError msg).

(** ** Python sequence indexing and slicing *)

Section Sequences.
Context {A : Type}.

(** [xs[i]] for a list or bytes object: a negative index counts from the
    end, an index out of range raises [IndexError]. *)
Definition py_index (xs : list A) (i : Z) : outcome A :=
  let n := Z.of_nat (length xs) in
  let j := (if i <? 0 then i + n else i)%Z in
  if (j <? 0)%Z then Raised IndexError
  else match xs !! Z.to_nat j with
       | Some x => Returned x
       | None => Raised IndexError
       end.

(** How a slice bound is clamped ([slice.indices] with step 1). *)
Definition clamp_bound (n : Z) (i : Z) : Z :=
  (if i <? 0 then Z.max (i + n) 0 else Z.min i n)%Z.

(** [xs[lo:hi]]; a missing bound is [None]. *)
Definition py_slice (xs : list A) (lo hi : option Z) : list A :=
  let n := Z.of_nat (length xs) in
  let a := match lo with Some i => clamp_bound n i | None => 0%Z end in
  let b := match hi with Some i => clamp_bound n i | None => n end in
  take (Z.to_nat (b - a)) (drop (Z.to_nat a) xs).
End Sequences.

(** ** [posixpath.join] with two components *)

Definition startswith_sep (s : string) : bool :=
  match s with
  | String c _ => Ascii.eqb c "/"
  | EmptyString => false
  end.

Fixpoint endswith_sep (s : string) : bool :=
  match s with
  | EmptyString => false
  | String c EmptyString => Ascii.eqb c "/"
  | String _ rest => endswith_sep rest
  end.

Definition is_empty_string (s : string) : bool :=
  match s with EmptyString => true | _ => false end.

Definition path_join (a b : string) : string :=
  if startswith_sep b then b
  else if is_empty_string a || endswith_sep a then String.append a b
  else String.append a (String.append "/" b).

(* ===================================================================== *)
(** * CheckpointHandler.py *)
(* ===================================================================== *)

Module CheckpointHandler.

(** The seven metric keys of [initialize_logs]. *)
Definition metric_keys : list string :=
  [ "train_loss"; "train_loss_X"; "train_loss_X_epoch";
    "runtime_per_250_batches"; "l0_norm"; "l0_norm_X";
    "l0_norm_X_epoch" ]%string.

Record CheckpointHandler : Type := {
  experiment_name : string;
  checkpoint_dir : string;
  checkpoint_path : string;
  epoch : Z;
  chunk : Z;
  start_time : Q;
  last_check_time : Q;
  checkpoint_every : Q;
  max_runtime : Q
}.

(** [__init__].  [script_dir] is [os.path.dirname(os.path.abspath(__file__))]
    and [now] the reading of [time.time()].  [checkpoint_dir or ...] takes
    the default for [None] and for the empty string alike. *)
Definition __init__ (experiment_name : string)
    (checkpoint_every max_runtime : Q) (checkpoint_dir : option string)
    (script_dir : string) (now : Q) : CheckpointHandler :=
  let dir := match checkpoint_dir with
             | Some d => if is_empty_string d then script_dir else d
             | None => script_dir
             end in
  {| experiment_name := experiment_name;
     checkpoint_dir := dir;
     checkpoint_path :=
       path_join dir (String.append experiment_name "_checkpoint.pkl");
     epoch := 0;
     chunk := 0;
     start_time := now;
     last_check_time := now;
     checkpoint_every := checkpoint_every;
     max_runtime := max_runtime |}.

(** [update] *)
Definition update (epoch' chunk' : Z) (self : CheckpointHandler)
    : CheckpointHandler :=
  {| experiment_name := experiment_name self;
     checkpoint_dir := checkpoint_dir self;
     checkpoint_path := checkpoint_path self;
     epoch := epoch';
     chunk := chunk';
     start_time := start_time self;
     last_check_time := last_check_time self;
     checkpoint_every := checkpoint_every self;
     max_runtime := max_runtime self |}.

(** Python's [x > y] on the clock readings. *)
Definition gt (x y : Q) : bool := negb (Qle_bool x y).

Definition set_last_check_time (t : Q) (self : CheckpointHandler)
    : CheckpointHandler :=
  {| experiment_name := experiment_name self;
     checkpoint_dir := checkpoint_dir self;
     checkpoint_path := checkpoint_path self;
     epoch := epoch self;
     chunk := chunk self;
     start_time := start_time self;
     last_check_time := t;
     checkpoint_every := checkpoint_every self;
     max_runtime := max_runtime self |}.

(** [should_checkpoint]; [current_time] is the reading of [time.time()]
    taken by this call.  The two differences are float subtractions: the
    method compares [rnd] of the exact difference, where [rnd] is the
    rounding of float subtraction. *)
Definition should_checkpoint (rnd : Q → Q) (current_time : Q)
    (self : CheckpointHandler) : CheckpointHandler * bool :=
  if gt (rnd (current_time - last_check_time self)%Q) (checkpoint_every self)
  then
    let self' := set_last_check_time current_time self in
    if gt (rnd (current_time - start_time self')%Q) (max_runtime self') then
      (self', true)
    else (self', false)
  else (self, false).

(** A run of calls to [should_checkpoint] at the given clock readings:
    the final handler and the value each call returned. *)
Fixpoint poll (rnd : Q → Q) (self : CheckpointHandler) (times : list Q)
    : CheckpointHandler * list bool :=
  match times with
  | [] => (self, [])
  | t :: rest =>
      let '(self1, r) := should_checkpoint rnd t self in
      let '(self2, rs) := poll rnd self1 rest in
      (self2, r :: rs)
  end.

(** What is used of float subtraction.  Rounding keeps the order of the
    exact results. *)
Definition rnd_monotone (rnd : Q → Q) : Prop :=
  ∀ x y, (x <= y)%Q → (rnd x <= rnd y)%Q.

(** [x] is a value the floats represent: rounding leaves it as it is. *)
Definition representable (rnd : Q → Q) (x : Q) : Prop := (rnd x == x)%Q.

(** Every subtraction [b - a] of a reading in [bases] from a reading in
    [times] is exact.  Float subtraction is exact on two readings that are
    within a factor 2 of each other, as two readings of [time.time()] taken
    during one run are. *)
Definition exact_differences (rnd : Q → Q) (bases times : list Q) : Prop :=
  ∀ a b, a ∈ bases → b ∈ times → (rnd (b - a)%Q == b - a)%Q.

(** The rational a double denotes (0 for an infinity or a NaN, which no
    clock reading is), and what it means for [rnd] to round the difference
    of two given doubles as the hardware does. *)
Definition float_value (f : PrimFloat.float) : Q :=
  match FloatOps.Prim2SF f with
  | SpecFloat.S754_finite s m e =>
      let q := (inject_Z (Z.pos m) * Qpower 2 e)%Q in
      if s then (- q)%Q else q
  | _ => 0%Q
  end.

(** The double [m * 2^e], for a mantissa below [2^53]. *)
Definition double (m : positive) (e : Z) : PrimFloat.float :=
  FloatOps.SF2Prim (SpecFloat.S754_finite false m e).

(** The readings [0.1] and [1.1] of the clock, as the doubles nearest to
    them. *)
Definition reading_01 : PrimFloat.float := double 7205759403792794 (-56).

Definition reading_11 : PrimFloat.float := double 4953959590107546 (-52).

Definition rounds_as_double (rnd : Q → Q) (a b : PrimFloat.float) : Prop :=
  (rnd (float_value b - float_value a)%Q
   == float_value (PrimFloat.sub b a))%Q.

(** A run of [update] calls, oldest first. *)
Definition updates (calls : list (Z * Z)) (self : CheckpointHandler)
    : CheckpointHandler :=
  foldl (λ h c, update c.1 c.2 h) self calls.

(** The path is the one [__init__] derives from the experiment name and the
    directory; no method assigns [checkpoint_path] afterwards. *)
Definition path_consistent (self : CheckpointHandler) : Prop :=
  checkpoint_path self
  = path_join (checkpoint_dir self)
      (String.append (experiment_name self) "_checkpoint.pkl").

(** Polling at an interval of at most [every]: the clock never goes back and
    each call comes at most [every] after the one before it, the first at
    most [every] after [prev]. *)
Fixpoint polled_every (every prev : Q) (times : list Q) : Prop :=
  match times with
  | [] => True
  | t :: rest =>
      (prev <= t)%Q ∧ (t - prev <= every)%Q ∧ polled_every every t rest
  end.

(** Some call made no later than [deadline] returned [True]. *)
Definition returns_true_by (deadline : Q) (times : list Q)
    (results : list bool) : Prop :=
  ∃ i t, times !! i = Some t ∧ results !! i = Some true ∧ (t <= deadline)%Q.

Section Persistence.
(** The model and the optimizer are external: all that is used of them is
    the state their [state_dict()] returns.  A log value is whatever the
    caller stores in the metric lists. *)
Variables Model Optimizer ModelState OptimizerState LogValue : Type.
Variable module_state_dict : Model → ModelState.
    (* ddp_model.module.state_dict() *)
Variable optimizer_state_dict : Optimizer → OptimizerState.

(** The dictionary [save_checkpoint] builds; its five keys are fixed. *)
Record Checkpoint : Type := {
  ck_epoch : Z;
  ck_chunk : Z;
  ck_model_state_dict : ModelState;
  ck_optimizer_state_dict : OptimizerState;
  ck_logs : gmap string (list LogValue)
}.

(** [pickle]: what [pickle.dump] writes and what [pickle.load] reads back.
    [pickle_load] is [None] where the real one raises. *)
Variable FileData : Type.
Variable pickle_dump : Checkpoint → FileData.
Variable pickle_load : FileData → option Checkpoint.
Hypothesis pickle_load_dump : ∀ c, pickle_load (pickle_dump c) = Some c.

(** [initialize_logs] *)
Definition initialize_logs : gmap string (list LogValue) :=
  list_to_map ((λ k, (k, [])) <$> metric_keys).

(** [save_checkpoint]: opening with ['wb'] creates or truncates the file.
    Files are told apart by the spelling of their path, and the content of
    a file stands for what [pickle.load] reads back from it. *)
Definition save_checkpoint (self : CheckpointHandler) (ddp_model : Model)
    (optimizer : Optimizer) (logs : gmap string (list LogValue))
    (fs : gmap string FileData) : gmap string FileData :=
  let checkpoint :=
    {| ck_epoch := epoch self;
       ck_chunk := chunk self;
       ck_model_state_dict := module_state_dict ddp_model;
       ck_optimizer_state_dict := optimizer_state_dict optimizer;
       ck_logs := logs |} in
  <[checkpoint_path self := pickle_dump checkpoint]> fs.

(** [load_checkpoint]: the handler after the call and the returned triple. *)
Definition load_checkpoint (self : CheckpointHandler)
    (fs : gmap string FileData)
    : outcome (CheckpointHandler *
               (option ModelState * option OptimizerState *
                gmap string (list LogValue))) :=
  match fs !! checkpoint_path self with
  | Some f =>
      match pickle_load f with
      | Some checkpoint =>
          let self' :=
            update (ck_epoch checkpoint) (ck_chunk checkpoint) self in
          Returned (self', (Some (ck_model_state_dict checkpoint),
                            Some (ck_optimizer_state_dict checkpoint),
                            ck_logs checkpoint))
      | None => Raised UnpicklingError
      end
  | None => Returned (self, (None, None, initialize_logs))
  end.

(** The record a later [pickle.load] of the file at [path] yields. *)
Definition persisted_record (fs : gmap string FileData) (path : string)
    : option Checkpoint :=
  fs !! path ≫= pickle_load.

(** *** Helper lemmas *)

Lemma updates_position calls self :
  (epoch (updates calls self), chunk (updates calls self))
  = List.last calls (epoch self, chunk self).
Proof.
  induction calls as [|c calls _] using rev_ind; [done|].
  unfold updates. rewrite foldl_app, List.last_last. cbn. by destruct c.
Qed.

Lemma updates_path calls self :
  checkpoint_path (updates calls self) = checkpoint_path self.
Proof.
  revert self. induction calls as [|c calls IH]; intros self; [done|].
  unfold updates in *. cbn [foldl]. by rewrite IH.
Qed.

Lemma persisted_after_save self ddp_model optimizer logs fs :
  persisted_record (save_checkpoint self ddp_model optimizer logs fs)
                   (checkpoint_path self)
  = Some {| ck_epoch := epoch self;
            ck_chunk := chunk self;
            ck_model_state_dict := module_state_dict ddp_model;
            ck_optimizer_state_dict := optimizer_state_dict optimizer;
            ck_logs := logs |}.
Proof.
  unfold persisted_record, save_checkpoint.
  rewrite lookup_insert_eq. cbn. apply pickle_load_dump.
Qed.

Lemma load_checkpoint_absent self fs :
  fs !! checkpoint_path self = None →
  load_checkpoint self fs = Returned (self, (None, None, initialize_logs)).
Proof. intros Habsent. unfold load_checkpoint. by rewrite Habsent. Qed.

Lemma metric_keys_NoDup : NoDup metric_keys.
Proof. by apply (bool_decide_unpack (NoDup metric_keys)). Qed.

Lemma initialize_logs_lookup k :
  initialize_logs !! k = if decide (k ∈ metric_keys) then Some [] else None.
Proof.
  unfold initialize_logs. case_decide as Hk.
  - apply elem_of_list_to_map_1.
    + rewrite <- list_fmap_compose, list_fmap_id. apply metric_keys_NoDup.
    + apply (list_elem_of_fmap_2 (λ k, (k, [])) _ _ Hk).
  - apply not_elem_of_list_to_map_1. rewrite <- list_fmap_compose.
    intros Hin. apply Hk. by rewrite list_fmap_id in Hin.
Qed.

Lemma save_position_general self0 calls ddp_model optimizer logs fs :
  let self := updates calls self0 in
  ∃ record,
    persisted_record (save_checkpoint self ddp_model optimizer logs fs)
                     (checkpoint_path self) = Some record
    ∧ (ck_epoch record, ck_chunk record)
      = List.last calls (epoch self0, chunk self0).
Proof.
  intros self. eexists. split; [apply persisted_after_save|].
  cbn [ck_epoch ck_chunk]. apply updates_position.
Qed.

(** *** Claims about persistence *)

(** C1. Saving and then loading, on a handler with the same experiment name
    and checkpoint directory, returns exactly the saved model state,
    optimizer state and logs, and sets the loading handler's epoch and chunk
    to the saved position; nothing else of the loading handler changes. *)
Theorem save_load_roundtrip (saver loader : CheckpointHandler)
    (ddp_model : Model) (optimizer : Optimizer)
    (logs : gmap string (list LogValue)) (fs : gmap string FileData) :
  path_consistent saver → path_consistent loader →
  experiment_name loader = experiment_name saver →
  checkpoint_dir loader = checkpoint_dir saver →
  ∃ loader',
    load_checkpoint loader (save_checkpoint saver ddp_model optimizer logs fs)
    = Returned (loader', (Some (module_state_dict ddp_model),
                          Some (optimizer_state_dict optimizer),
                          logs))
    ∧ epoch loader' = epoch saver
    ∧ chunk loader' = chunk saver
    ∧ loader' = update (epoch saver) (chunk saver) loader.
Proof.
  intros Hs Hl Hname Hdir.
  exists (update (epoch saver) (chunk saver) loader). split; [|done].
  unfold load_checkpoint, save_checkpoint.
  replace (checkpoint_path loader) with (checkpoint_path saver)
    by (unfold path_consistent in *; congruence).
  by rewrite lookup_insert_eq, pickle_load_dump.
Qed.

(** C4. After any sequence of [update] calls on a newly constructed handler,
    the record [save_checkpoint] persists carries the arguments of the last
    call, and (0, 0) when there was none. *)
Theorem save_persists_last_update name every maxr dir script_dir now
    (calls : list (Z * Z)) (ddp_model : Model) (optimizer : Optimizer)
    (logs : gmap string (list LogValue)) (fs : gmap string FileData) :
  let self := updates calls (__init__ name every maxr dir script_dir now) in
  ∃ record,
    persisted_record (save_checkpoint self ddp_model optimizer logs fs)
                     (checkpoint_path self) = Some record
    ∧ (ck_epoch record, ck_chunk record) = List.last calls (0, 0)%Z.
Proof. apply save_position_general. Qed.

(** C6. With no checkpoint file, [load_checkpoint] returns normally with no
    model state, no optimizer state and a logs dictionary holding exactly
    the seven metric keys, each with an empty list; the handler is left as
    it was, so a handler as [__init__] builds it stays at epoch 0,
    chunk 0. *)
Theorem load_checkpoint_fresh_start (self : CheckpointHandler)
    (fs : gmap string FileData) :
  fs !! checkpoint_path self = None →
  ∃ self' logs,
    load_checkpoint self fs = Returned (self', (None, None, logs))
    ∧ self' = self
    ∧ (∀ name every maxr dir script_dir now,
         self = __init__ name every maxr dir script_dir now →
         epoch self' = 0%Z ∧ chunk self' = 0%Z)
    ∧ length metric_keys = 7 ∧ NoDup metric_keys
    ∧ ∀ k, logs !! k = if decide (k ∈ metric_keys) then Some [] else None.
Proof.
  intros Habsent. exists self, initialize_logs.
  split; [by apply load_checkpoint_absent|]. split; [done|].
  split; [by intros ? ? ? ? ? ? ->|].
  split; [done|]. split; [apply metric_keys_NoDup|].
  apply initialize_logs_lookup.
Qed.

(** *** Further properties of persistence *)

(** X1. The store has one slot per path: of two saves to the same path only
    the second leaves a trace, and a load returns what the second one
    saved. *)
Theorem save_last_write_wins (first second loader : CheckpointHandler)
    (model1 model2 : Model) (optimizer1 optimizer2 : Optimizer)
    (logs1 logs2 : gmap string (list LogValue)) (fs : gmap string FileData) :
  checkpoint_path second = checkpoint_path first →
  checkpoint_path loader = checkpoint_path first →
  let fs2 := save_checkpoint second model2 optimizer2 logs2
               (save_checkpoint first model1 optimizer1 logs1 fs) in
  fs2 = save_checkpoint second model2 optimizer2 logs2 fs
  ∧ load_checkpoint loader fs2
    = Returned (update (epoch second) (chunk second) loader,
                (Some (module_state_dict model2),
                 Some (optimizer_state_dict optimizer2), logs2)).
Proof.
  intros Hsecond Hloader fs2. subst fs2. unfold save_checkpoint.
  rewrite Hsecond, insert_insert_eq. split; [done|].
  unfold load_checkpoint. rewrite Hloader.
  by rewrite lookup_insert_eq, pickle_load_dump.
Qed.

(** X3. Resuming and saving again loses nothing: after a save, when a
    handler on the same path loads the checkpoint and saves the states and
    logs it was given back, the file holds the record it held before, and a
    load returns what it returned before. *)
Theorem resume_then_save_keeps_record (saver loader : CheckpointHandler)
    (ddp_model resumed_model : Model) (optimizer resumed_optimizer : Optimizer)
    (logs : gmap string (list LogValue)) (fs : gmap string FileData) :
  checkpoint_path loader = checkpoint_path saver →
  let fs1 := save_checkpoint saver ddp_model optimizer logs fs in
  ∃ loader' model_state optimizer_state logs',
    load_checkpoint loader fs1
    = Returned (loader', (Some model_state, Some optimizer_state, logs'))
    ∧ (module_state_dict resumed_model = model_state →
       optimizer_state_dict resumed_optimizer = optimizer_state →
       let fs2 := save_checkpoint loader' resumed_model resumed_optimizer
                    logs' fs1 in
       persisted_record fs2 (checkpoint_path saver)
       = persisted_record fs1 (checkpoint_path saver)
       ∧ load_checkpoint loader fs2 = load_checkpoint loader fs1).
Proof.
  intros Hpath fs1.
  exists (update (epoch saver) (chunk saver) loader),
    (module_state_dict ddp_model), (optimizer_state_dict optimizer), logs.
  assert (load_checkpoint loader fs1
          = Returned (update (epoch saver) (chunk saver) loader,
                      (Some (module_state_dict ddp_model),
                       Some (optimizer_state_dict optimizer), logs)))
    as Hload.
  { subst fs1. unfold load_checkpoint, save_checkpoint. rewrite Hpath.
    by rewrite lookup_insert_eq, pickle_load_dump. }
  split; [done|]. intros Hm Ho fs2. split.
  - subst fs1. rewrite (persisted_after_save saver).
    replace (checkpoint_path saver)
      with (checkpoint_path (update (epoch saver) (chunk saver) loader))
      by done.
    subst fs2. rewrite persisted_after_save. cbn [epoch chunk update].
    by rewrite Hm, Ho.
  - rewrite Hload. subst fs2. unfold load_checkpoint at 1, save_checkpoint at 1.
    cbn [checkpoint_path epoch chunk update].
    rewrite lookup_insert_eq, pickle_load_dump.
    cbn [ck_epoch ck_chunk ck_model_state_dict ck_optimizer_state_dict
         ck_logs].
    by rewrite Hm, Ho.
Qed.

End Persistence.

(** *** Helper lemmas on the clock *)

Lemma gt_spec x y : gt x y = true ↔ (y < x)%Q.
Proof.
  unfold gt. rewrite negb_true_iff. split.
  - intros H. apply Qnot_le_lt. intros Hle. apply Qle_bool_iff in Hle.
    congruence.
  - intros H. destruct (Qle_bool x y) eqn:E; [|done].
    apply Qle_bool_iff in E. lra.
Qed.

Lemma gt_false x y : gt x y = false ↔ (x <= y)%Q.
Proof.
  unfold gt. rewrite negb_false_iff. apply Qle_bool_iff.
Qed.

Lemma gt_proper x x' y : (x == x')%Q → gt x y = gt x' y.
Proof.
  intros Heq. destruct (gt x' y) eqn:E.
  - apply gt_spec in E. apply gt_spec. lra.
  - apply gt_false in E. apply gt_false. lra.
Qed.

(** Under a monotone rounding, a rounded difference above a representable
    threshold comes from an exact difference above it. *)
Lemma gt_rnd_lt rnd x y :
  rnd_monotone rnd → representable rnd y →
  gt (rnd x) y = true → (y < x)%Q.
Proof.
  intros Hmono Hy Hgt. apply gt_spec in Hgt.
  destruct (Qlt_le_dec y x) as [|Hle]; [done|].
  specialize (Hmono x y Hle). unfold representable in Hy. lra.
Qed.

Lemma rnd_monotone_id : rnd_monotone (λ x, x).
Proof. by intros x y. Qed.

Lemma poll_cons rnd self t rest :
  (poll rnd self (t :: rest)).2
  = (should_checkpoint rnd t self).2
    :: (poll rnd (should_checkpoint rnd t self).1 rest).2.
Proof.
  simpl. destruct (should_checkpoint rnd t self) as [self1 r]. simpl.
  by destruct (poll rnd self1 rest).
Qed.

Lemma poll_length rnd self times :
  length (poll rnd self times).2 = length times.
Proof.
  revert self. induction times as [|t rest IH]; intros self; [done|].
  rewrite poll_cons. cbn. by rewrite IH.
Qed.

Lemma should_checkpoint_true rnd now self :
  rnd_monotone rnd → representable rnd (max_runtime self) →
  (should_checkpoint rnd now self).2 = true →
  (max_runtime self < now - start_time self)%Q.
Proof.
  intros Hmono Hmax. unfold should_checkpoint.
  destruct (gt (rnd (now - last_check_time self)%Q) (checkpoint_every self));
    [|done].
  cbn [start_time max_runtime set_last_check_time].
  destruct (gt (rnd (now - start_time self)%Q) (max_runtime self)) eqn:E;
    [|done].
  intros _. by apply (gt_rnd_lt rnd).
Qed.

Lemma should_checkpoint_constants rnd now self :
  let self' := (should_checkpoint rnd now self).1 in
  experiment_name self' = experiment_name self
  ∧ checkpoint_dir self' = checkpoint_dir self
  ∧ checkpoint_path self' = checkpoint_path self
  ∧ epoch self' = epoch self
  ∧ chunk self' = chunk self
  ∧ start_time self' = start_time self
  ∧ checkpoint_every self' = checkpoint_every self
  ∧ max_runtime self' = max_runtime self.
Proof.
  unfold should_checkpoint.
  destruct (gt (rnd (now - last_check_time self)%Q) (checkpoint_every self));
    [|done].
  cbn [start_time max_runtime set_last_check_time].
  by destruct (gt (rnd (now - start_time self)%Q) (max_runtime self)).
Qed.

Lemma should_checkpoint_last_check_time rnd now self :
  last_check_time (should_checkpoint rnd now self).1 = now
  ∨ last_check_time (should_checkpoint rnd now self).1
    = last_check_time self.
Proof.
  unfold should_checkpoint.
  destruct (gt (rnd (now - last_check_time self)%Q) (checkpoint_every self));
    [|by right].
  cbn [start_time max_runtime set_last_check_time].
  destruct (gt (rnd (now - start_time self)%Q) (max_runtime self)); by left.
Qed.

Lemma init_path_consistent name every maxr dir script_dir now :
  path_consistent (__init__ name every maxr dir script_dir now).
Proof. reflexivity. Qed.

Lemma update_path_consistent e c self :
  path_consistent self → path_consistent (update e c self).
Proof. done. Qed.

Lemma should_checkpoint_path_consistent rnd now self :
  path_consistent self → path_consistent (should_checkpoint rnd now self).1.
Proof.
  unfold path_consistent.
  destruct (should_checkpoint_constants rnd now self) as (-> & -> & -> & _).
  done.
Qed.

(** Where the two subtractions of a call are exact, the call does what it
    does under exact arithmetic; so does a run all of whose subtractions are
    exact. *)
Lemma should_checkpoint_exact rnd now self :
  (rnd (now - last_check_time self)%Q == now - last_check_time self)%Q →
  (rnd (now - start_time self)%Q == now - start_time self)%Q →
  should_checkpoint rnd now self = should_checkpoint (λ x, x) now self.
Proof.
  intros Hlast Hstart. unfold should_checkpoint.
  cbn [start_time max_runtime set_last_check_time].
  by rewrite (gt_proper _ _ _ Hlast), (gt_proper _ _ _ Hstart).
Qed.

Lemma poll_exact rnd self times :
  exact_differences rnd (start_time self :: last_check_time self :: times)
    times →
  poll rnd self times = poll (λ x, x) self times.
Proof.
  revert self. induction times as [|t rest IH]; intros self Hex; [done|].
  cbn [poll]. rewrite should_checkpoint_exact.
  - pose proof (should_checkpoint_constants (λ x, x) t self)
      as (_ & _ & _ & _ & _ & Hst & _).
    pose proof (should_checkpoint_last_check_time (λ x, x) t self) as Hlast.
    destruct (should_checkpoint (λ x, x) t self) as [self1 r].
    cbn [fst] in Hst, Hlast. rewrite IH; [done|].
    intros a b Ha Hb. apply Hex; [|by apply list_elem_of_further].
    rewrite Hst in Ha. apply elem_of_cons in Ha as [->|Ha].
    { apply list_elem_of_here. }
    apply list_elem_of_further.
    apply elem_of_cons in Ha as [->|Ha].
    + destruct Hlast as [-> | ->];
        [apply list_elem_of_further|]; apply list_elem_of_here.
    + by do 2 apply list_elem_of_further.
  - apply Hex; [|apply list_elem_of_here].
    apply list_elem_of_further, list_elem_of_here.
  - apply Hex; apply list_elem_of_here.
Qed.

(** Under exact arithmetic the gate of [should_checkpoint] stays closed for
    [checkpoint_every] after it last opened and opens at the first call
    after that: polled at most [period] apart, it opens within
    [checkpoint_every + period].  So the first call that returns [True]
    comes within [max_runtime + checkpoint_every + period] of
    construction. *)
Lemma poll_fires self period prev times :
  (last_check_time self <= prev)%Q →
  (prev <= last_check_time self + checkpoint_every self)%Q →
  (last_check_time self <= start_time self + max_runtime self)%Q →
  polled_every period prev times →
  (∃ t, t ∈ times
        ∧ (start_time self + max_runtime self + checkpoint_every self < t)%Q) →
  returns_true_by
    (start_time self + max_runtime self + checkpoint_every self + period)
    times (poll (λ x, x) self times).2.
Proof.
  revert self prev.
  induction times as [|t rest IH];
    intros self prev HL Hprev HS Hpoll (t' & Hin & Hlate).
  { by apply elem_of_nil in Hin. }
  destruct Hpoll as (Hmono & Hgap & Hrest). rewrite poll_cons.
  unfold should_checkpoint.
  destruct (gt (t - last_check_time self) (checkpoint_every self)) eqn:Egate.
  - apply gt_spec in Egate.
    cbn [start_time max_runtime set_last_check_time].
    destruct (gt (t - start_time self) (max_runtime self)) eqn:Emax.
    + apply gt_spec in Emax. exists 0%nat, t. cbn.
      split; [done|]. split; [done|]. lra.
    + apply gt_false in Emax. cbn [fst snd].
      destruct (IH (set_last_check_time t self) t) as (i & ti & Hi & Hr & Hd);
        cbn [last_check_time start_time max_runtime checkpoint_every
             set_last_check_time]; try lra; try done.
      * exists t'. split; [|done].
        apply elem_of_cons in Hin as [->|Hin]; [lra|done].
      * by exists (S i), ti.
  - apply gt_false in Egate. cbn [fst snd].
    destruct (IH self t) as (i & ti & Hi & Hr & Hd); try lra; try done.
    + exists t'. split; [|done].
      apply elem_of_cons in Hin as [->|Hin]; [lra|done].
    + by exists (S i), ti.
Qed.

Lemma poll_true_late rnd self times i t :
  rnd_monotone rnd → representable rnd (max_runtime self) →
  times !! i = Some t → (poll rnd self times).2 !! i = Some true →
  (max_runtime self < t - start_time self)%Q.
Proof.
  intros Hmono. revert self i.
  induction times as [|t0 rest IH]; intros self i Hmax Ht Hr; [done|].
  rewrite poll_cons in Hr. destruct i as [|i]; cbn in Ht, Hr.
  - injection Ht as ->. injection Hr as Hr.
    by apply (should_checkpoint_true rnd).
  - destruct (should_checkpoint_constants rnd t0 self)
      as (_ & _ & _ & _ & _ & Hst & _ & Hm).
    cbn zeta in Hst, Hm. rewrite <- Hst, <- Hm.
    apply (IH _ i); [by rewrite Hm|done..].
Qed.

(** *** Claims about the checkpoint policy *)

(** C8, as the code has it.  One call of [should_checkpoint] never changes
    [start_time] nor any field other than [last_check_time].  It sets
    [last_check_time] to the current time when the float difference
    [current_time - last_check_time] is above [checkpoint_every]; otherwise
    it leaves the handler as it was and returns [False].  When the rounding
    is monotone and [checkpoint_every] is a value the floats represent, the
    float difference is above [checkpoint_every] only if the time elapsed
    is; whenever the subtraction is exact the two agree. *)
Theorem should_checkpoint_footprint (rnd : Q → Q) (now : Q)
    (self : CheckpointHandler) :
  let self' := (should_checkpoint rnd now self).1 in
  let result := (should_checkpoint rnd now self).2 in
  let elapsed := (now - last_check_time self)%Q in
  start_time self' = start_time self
  ∧ experiment_name self' = experiment_name self
  ∧ checkpoint_dir self' = checkpoint_dir self
  ∧ checkpoint_path self' = checkpoint_path self
  ∧ epoch self' = epoch self
  ∧ chunk self' = chunk self
  ∧ checkpoint_every self' = checkpoint_every self
  ∧ max_runtime self' = max_runtime self
  ∧ ((checkpoint_every self < rnd elapsed)%Q → last_check_time self' = now)
  ∧ (¬ (checkpoint_every self < rnd elapsed)%Q →
       last_check_time self' = last_check_time self ∧ result = false
       ∧ self' = self)
  ∧ (rnd_monotone rnd → representable rnd (checkpoint_every self) →
     (checkpoint_every self < rnd elapsed)%Q →
     (checkpoint_every self < elapsed)%Q)
  ∧ ((rnd elapsed == elapsed)%Q →
     ((checkpoint_every self < rnd elapsed)%Q
      ↔ (checkpoint_every self < elapsed)%Q)).
Proof.
  intros self' result elapsed.
  destruct (should_checkpoint_constants rnd now self)
    as (Hn & Hd & Hp & He & Hc & Hs & Hev & Hm).
  repeat (split; [done|]). subst self' result. unfold should_checkpoint.
  fold elapsed.
  destruct (gt (rnd elapsed) (checkpoint_every self)) eqn:E.
  - pose proof E as Hgate. apply gt_spec in Hgate. split; [|split; [|split]].
    + intros _. cbn [start_time max_runtime set_last_check_time].
      by destruct (gt (rnd (now - start_time self)%Q) (max_runtime self)).
    + done.
    + intros Hmono Hrep _. by apply (gt_rnd_lt rnd).
    + intros Hexact. split; intros; lra.
  - apply gt_false in E. split; [|split; [|split]].
    + intros Hlt. lra.
    + done.
    + intros _ _ Hlt. lra.
    + intros Hexact. split; intros; lra.
Qed.

(** C8, as stated, fails: whether [last_check_time] is updated depends on
    the rounded difference, not on the time elapsed.  The handler is built
    at the reading [0.1] with [checkpoint_every = 1] and called at the
    reading [1.1].  The two doubles are more than 1 apart, their float
    difference is the double [1.0], and [1.0 > 1] does not hold: the call
    leaves [last_check_time] as it was. *)
Lemma should_checkpoint_rounding_skips_update :
  let t0 := float_value reading_01 in
  let t1 := float_value reading_11 in
  let self := __init__ "exp" 1 3600 None "/src" t0 in
  (checkpoint_every self < t1 - last_check_time self)%Q
  ∧ (float_value (PrimFloat.sub reading_11 reading_01) == 1)%Q
  ∧ PrimFloat.ltb (double 1 0) (PrimFloat.sub reading_11 reading_01) = false
  ∧ ∀ rnd, rounds_as_double rnd reading_01 reading_11 →
      should_checkpoint rnd t1 self = (self, false)
      ∧ last_check_time (should_checkpoint rnd t1 self).1 ≠ t1.
Proof.
  cbn zeta. split; [by vm_compute|]. split; [by vm_compute|].
  split; [reflexivity|]. intros rnd Hrnd.
  assert (should_checkpoint rnd (float_value reading_11)
            (__init__ "exp" 1 3600 None "/src" (float_value reading_01))
          = (__init__ "exp" 1 3600 None "/src" (float_value reading_01),
             false)) as ->.
  { unfold should_checkpoint.
    cbn [last_check_time checkpoint_every __init__].
    rewrite (gt_proper _ _ _ Hrnd). by vm_compute. }
  split; [done|]. cbn [fst last_check_time __init__]. by vm_compute.
Qed.

(** C2, as the code has it.  Under a monotone rounding and a [max_runtime]
    the floats represent, a call returns [True] only when more than
    [max_runtime] has passed since construction.  When the subtractions of
    the run are exact, [max_runtime] is not negative and the handler is
    polled at an interval of at most [checkpoint_every] until after
    [max_runtime + checkpoint_every], some call made within
    [max_runtime + 2 * checkpoint_every] of construction returns [True]. *)
Theorem should_checkpoint_timing (rnd : Q → Q) name every maxr dir
    script_dir (t0 : Q) (times : list Q) :
  let self := __init__ name every maxr dir script_dir t0 in
  let results := (poll rnd self times).2 in
  (rnd_monotone rnd → representable rnd maxr →
   ∀ i t, times !! i = Some t → results !! i = Some true →
          (maxr < t - t0)%Q)
  ∧ (exact_differences rnd (t0 :: times) times →
     (0 <= maxr)%Q →
     polled_every every t0 times →
     (∃ t, t ∈ times ∧ (t0 + maxr + every < t)%Q) →
     returns_true_by (t0 + maxr + 2 * every) times results).
Proof.
  intros self results. split.
  - intros Hmono Hrep i t Ht Hr.
    by apply (poll_true_late rnd self times i t).
  - intros Hexact Hmax Hpoll Hlate.
    assert (0 <= every)%Q as Hevery.
    { destruct Hlate as (t & Hin & _). destruct times as [|t1 rest].
      - by apply elem_of_nil in Hin.
      - destruct Hpoll as (? & ? & _). lra. }
    subst results. rewrite poll_exact.
    2:{ intros a b Ha Hb. apply Hexact; [|done].
        apply elem_of_cons in Ha as [->|Ha]; [apply list_elem_of_here|done]. }
    destruct (poll_fires self every t0 times) as (i & t & Hi & Hr & Hd);
      cbn; try lra; try done.
    exists i, t. split; [done|]. split; [done|]. cbn in Hd. lra.
Qed.

(** C2, as stated, fails.  With [checkpoint_every = 1] and [max_runtime = 2]
    the handler is polled every 0.875 seconds, past the deadline 3; every
    reading is a multiple of 1/8 below 4, so that float subtraction is exact
    on them.  The gate opens at 1.75 (too early to stop) and again only at
    3.5, so the call at 2.625, made after [max_runtime] and before the
    deadline, returns [False]. *)
Lemma should_checkpoint_misses_deadline :
  let self := __init__ "exp" 1 2 None "/src" 0 in
  let times := [7 # 8; 14 # 8; 21 # 8; 28 # 8]%Q in
  polled_every 1 0 times
  ∧ ∀ rnd, exact_differences rnd (0%Q :: times) times →
      (poll rnd self times).2 = [false; false; false; true]
      ∧ ¬ returns_true_by (0 + 2 + 1) times (poll rnd self times).2.
Proof.
  cbn zeta. split.
  - cbn. repeat split; lra.
  - intros rnd Hexact. rewrite poll_exact.
    2:{ intros a b Ha Hb. apply Hexact; [|done].
        apply elem_of_cons in Ha as [->|Ha]; [apply list_elem_of_here|done]. }
    split; [reflexivity|].
    intros (i & t & Ht & Hr & Hle).
    replace (poll _ _ _).2 with [false; false; false; true] in Hr
      by reflexivity.
    destruct i as [|[|[|[|i]]]]; cbn in Ht, Hr; try discriminate.
    injection Ht as <-. lra.
Qed.

(** *** Further properties of the checkpoint policy *)

(** A clock that never goes back: each reading is at least the one before
    it, the first at least [prev]. *)
Fixpoint clock_monotone (prev : Q) (times : list Q) : Prop :=
  match times with
  | [] => True
  | t :: rest => (prev <= t)%Q ∧ clock_monotone t rest
  end.

Lemma clock_monotone_weaken (prev prev' : Q) (times : list Q) :
  (prev' <= prev)%Q → clock_monotone prev times → clock_monotone prev' times.
Proof.
  destruct times as [|t rest]; [done|]. intros ? [? ?]. split; [lra|done].
Qed.

Lemma should_checkpoint_true_gate rnd now self :
  rnd_monotone rnd → representable rnd (checkpoint_every self) →
  (should_checkpoint rnd now self).2 = true →
  (checkpoint_every self < now - last_check_time self)%Q
  ∧ last_check_time (should_checkpoint rnd now self).1 = now.
Proof.
  intros Hmono Hrep. unfold should_checkpoint.
  destruct (gt (rnd (now - last_check_time self)%Q) (checkpoint_every self))
    eqn:E; [|done].
  apply (gt_rnd_lt rnd) in E; [|done..].
  cbn [start_time max_runtime set_last_check_time].
  by destruct (gt (rnd (now - start_time self)%Q) (max_runtime self)).
Qed.

(** A call that returns [True] comes more than [checkpoint_every] after any
    time [c] that [last_check_time] had already reached. *)
Lemma poll_true_gap rnd self (c prev : Q) times j tj :
  rnd_monotone rnd → representable rnd (checkpoint_every self) →
  (c <= last_check_time self)%Q → (last_check_time self <= prev)%Q →
  clock_monotone prev times →
  times !! j = Some tj → (poll rnd self times).2 !! j = Some true →
  (checkpoint_every self < tj - c)%Q.
Proof.
  intros Hrnd. revert self prev j.
  induction times as [|t rest IH];
    intros self prev j Hrep Hc Hprev Hmono Ht Hr; [done|].
  destruct Hmono as [Hle Hmono]. rewrite poll_cons in Hr.
  destruct j as [|j]; cbn in Ht, Hr.
  - injection Ht as ->. injection Hr as Hr.
    apply should_checkpoint_true_gate in Hr as [Hr _]; [lra|done..].
  - destruct (should_checkpoint_constants rnd t self)
      as (_ & _ & _ & _ & _ & _ & Hev & _).
    cbn zeta in Hev. rewrite <- Hev.
    apply (IH (should_checkpoint rnd t self).1 t j); try done;
      [by rewrite Hev|..];
      destruct (should_checkpoint_last_check_time rnd t self) as [-> | ->];
      lra.
Qed.

(** X4. Under a clock that never goes back, a monotone rounding and a
    [checkpoint_every] the floats represent, two calls of
    [should_checkpoint] that both return [True] are more than
    [checkpoint_every] apart: a call repeated sooner after a [True] returns
    [False], however long the run has lasted. *)
Theorem should_checkpoint_true_spaced (rnd : Q → Q)
    (self : CheckpointHandler) (times : list Q) (i j : nat) (ti tj : Q) :
  rnd_monotone rnd → representable rnd (checkpoint_every self) →
  clock_monotone (last_check_time self) times →
  i < j →
  times !! i = Some ti → times !! j = Some tj →
  (poll rnd self times).2 !! i = Some true →
  (poll rnd self times).2 !! j = Some true →
  (checkpoint_every self < tj - ti)%Q.
Proof.
  intros Hrnd. revert self i j.
  induction times as [|t rest IH];
    intros self i j Hrep Hmono Hij Hti Htj Hri Hrj; [done|].
  destruct Hmono as [Hle Hmono]. rewrite poll_cons in Hri, Hrj.
  destruct j as [|j]; [lia|]. cbn in Htj, Hrj.
  destruct (should_checkpoint_constants rnd t self)
    as (_ & _ & _ & _ & _ & _ & Hev & _).
  cbn zeta in Hev. rewrite <- Hev.
  destruct i as [|i]; cbn in Hti, Hri.
  - injection Hti as ->. injection Hri as Hri.
    apply should_checkpoint_true_gate in Hri as [_ Hlast]; [|done..].
    apply (poll_true_gap rnd (should_checkpoint rnd ti self).1 ti ti rest j);
      try done; [by rewrite Hev|rewrite Hlast; lra..].
  - apply (IH (should_checkpoint rnd t self).1 i j); try done;
      [by rewrite Hev| |lia].
    apply (clock_monotone_weaken t); [|done].
    destruct (should_checkpoint_last_check_time rnd t self) as [-> | ->];
      lra.
Qed.

(** X5. Under a clock that never goes back, a monotone rounding and a
    [checkpoint_every] the floats represent, no call made within
    [checkpoint_every] of construction returns [True], whatever
    [max_runtime] is: the interval gate comes first. *)
Theorem should_checkpoint_quiet_at_start (rnd : Q → Q) name every maxr dir
    script_dir (t0 : Q) (times : list Q) (j : nat) (tj : Q) :
  let self := __init__ name every maxr dir script_dir t0 in
  rnd_monotone rnd → representable rnd every →
  clock_monotone t0 times →
  times !! j = Some tj →
  (tj - t0 <= every)%Q →
  (poll rnd self times).2 !! j = Some false.
Proof.
  intros self Hrnd Hrep Hmono Htj Hearly.
  destruct ((poll rnd self times).2 !! j) as [[|]|] eqn:Hr.
  - pose proof (poll_true_gap rnd self t0 t0 times j tj Hrnd Hrep) as Hgap.
    cbn in Hgap. specialize (Hgap ltac:(lra) ltac:(lra) Hmono Htj Hr). lra.
  - done.
  - exfalso. apply lookup_ge_None in Hr. apply lookup_lt_Some in Htj.
    rewrite poll_length in Hr. lia.
Qed.

(** *** A concrete instance *)

Example init_path_given_dir :
  checkpoint_path (__init__ "drr" 60 3600 (Some "/ckpt"%string) "/src" 0)
  = "/ckpt/drr_checkpoint.pkl"%string.
Proof. reflexivity. Qed.

Example init_path_default_dir :
  checkpoint_path (__init__ "drr" 60 3600 (Some ""%string) "/src/" 0)
  = "/src/drr_checkpoint.pkl"%string
  ∧ checkpoint_path (__init__ "drr" 60 3600 None "/src" 0)
    = "/src/drr_checkpoint.pkl"%string.
Proof. split; reflexivity. Qed.

(** Polling exactly once per interval: the strict comparison lets the gate
    open only at every second call. *)
Example poll_once_per_interval :
  (poll (λ x, x) (__init__ "exp" 1 2 None "/src" 0) [1; 2; 3; 4]%Q).2
  = [false; false; false; true].
Proof. reflexivity. Qed.

(** A rounding that is not exact: to the multiple of 1/8 below.  It is
    monotone and leaves the multiples of 1/8 as they are. *)
Definition round_down_8 (x : Q) : Q := (inject_Z (Qfloor (x * 8)) / 8)%Q.

Lemma round_down_8_monotone : rnd_monotone round_down_8.
Proof.
  intros x y Hxy. unfold round_down_8.
  assert (Qfloor (x * 8) <= Qfloor (y * 8))%Z as Hfloor
    by (apply Qfloor_resp_le; lra).
  unfold Qdiv. apply Qmult_le_compat_r; [by rewrite <- Zle_Qle|done].
Qed.

(** Under it a call made 1.0625 after the last check finds a difference of
    1, not above [checkpoint_every = 1], and returns [False]; the call after
    it opens the gate. *)
Example poll_round_down :
  (poll round_down_8 (__init__ "exp" 1 0 None "/src" 0)
     [17 # 16; 18 # 16]%Q).2
  = [false; true].
Proof. reflexivity. Qed.

(** The two readings are within half a unit in the last place of [0.1] and
    of [1.1]. *)
Example readings_nearest :
  (Qabs (float_value reading_01 - (1 # 10)) <= Qpower 2 (-57))%Q
  ∧ (Qabs (float_value reading_11 - (11 # 10)) <= Qpower 2 (-53))%Q.
Proof. split; by vm_compute. Qed.

(** Float subtraction is exact on the readings 0, 0.875, 1.75, 2.625 and
    3.5. *)
Example eighths_subtract_exactly :
  let readings :=
    [PrimFloat.zero; double 7 (-3); double 14 (-3); double 21 (-3);
     double 28 (-3)] in
  Forall (λ a, Forall (λ b,
            float_value (PrimFloat.sub b a)
            == float_value b - float_value a)%Q readings) readings.
Proof. cbn zeta. repeat constructor; by vm_compute. Qed.

(** State dictionaries as association lists of named integer tensors, metric
    values as rationals; the file holds the record as it was pickled. *)
Definition example_state : Type := list (string * list Z).

Definition example_file : Type := Checkpoint example_state example_state Q.

Definition example_dump (c : example_file) : example_file := c.

Definition example_load (f : example_file) : option example_file := Some f.

Definition example_model : example_state :=
  [("embed.weight"%string, [1; -2; 0]%Z)].

Definition example_optimizer : example_state :=
  [("step"%string, [17]%Z)].

Definition example_logs : gmap string (list Q) :=
  {[ "train_loss"%string := [9 # 10; 7 # 10]%Q ]}.

Definition example_saver : CheckpointHandler :=
  update 3 40 (__init__ "drr" 60 3600 (Some "/ckpt"%string) "/src" 0).

Definition example_loader : CheckpointHandler :=
  __init__ "drr" 60 3600 (Some "/ckpt"%string) "/src" 5000.

Lemma save_load_roundtrip_witness :
  ∃ loader',
    load_checkpoint example_state example_state Q example_file example_load
      example_loader
      (save_checkpoint example_state example_state example_state
         example_state Q id id example_file example_dump
         example_saver example_model example_optimizer example_logs ∅)
    = Returned (loader', (Some example_model, Some example_optimizer,
                          example_logs))
    ∧ epoch loader' = 3%Z
    ∧ chunk loader' = 40%Z
    ∧ loader' = update 3 40 example_loader.
Proof.
  apply (save_load_roundtrip example_state example_state example_state
           example_state Q id id example_file example_dump example_load
           (λ c, eq_refl) example_saver example_loader);
    reflexivity.
Defined.

Lemma save_persists_last_update_witness :
  ∃ record,
    persisted_record example_state example_state Q example_file example_load
      (save_checkpoint example_state example_state example_state
         example_state Q id id example_file example_dump
         example_saver example_model example_optimizer example_logs ∅)
      (checkpoint_path example_saver) = Some record
    ∧ (ck_epoch _ _ _ record, ck_chunk _ _ _ record) = (3, 40)%Z.
Proof.
  apply (save_persists_last_update example_state example_state example_state
           example_state Q id id example_file example_dump example_load
           (λ c, eq_refl) "drr" 60 3600 (Some "/ckpt"%string) "/src" 0
           [(1, 5); (3, 40)]%Z).
Defined.

Lemma load_checkpoint_fresh_start_witness :
  ∃ self' logs,
    load_checkpoint example_state example_state Q example_file example_load
      example_loader ∅ = Returned (self', (None, None, logs))
    ∧ self' = example_loader
    ∧ (∀ name every maxr dir script_dir now,
         example_loader = __init__ name every maxr dir script_dir now →
         epoch self' = 0%Z ∧ chunk self' = 0%Z)
    ∧ length metric_keys = 7 ∧ NoDup metric_keys
    ∧ ∀ k, logs !! k = if decide (k ∈ metric_keys) then Some [] else None.
Proof.
  apply (load_checkpoint_fresh_start example_state example_state Q
           example_file example_load example_loader ∅).
  reflexivity.
Defined.

Lemma should_checkpoint_timing_witness :
  returns_true_by (0 + 2 + 2 * 1)
    [7 # 8; 14 # 8; 21 # 8; 28 # 8]%Q
    (poll (λ x, x) (__init__ "exp" 1 2 None "/src" 0)
       [7 # 8; 14 # 8; 21 # 8; 28 # 8]%Q).2.
Proof.
  apply (proj2 (should_checkpoint_timing (λ x, x) "exp" 1 2 None "/src" 0
                  [7 # 8; 14 # 8; 21 # 8; 28 # 8]%Q)).
  - by intros a b _ _.
  - lra.
  - cbn. repeat split; lra.
  - exists (28 # 8)%Q. split; [|lra]. do 3 apply list_elem_of_further.
    apply list_elem_of_here.
Defined.

(** X6. [update] and [should_checkpoint] commute, whatever the rounding:
    the position kept by the handler has no part in the decision, and the
    decision leaves the position alone. *)
Theorem should_checkpoint_update_commute (rnd : Q → Q) (now : Q) (e c : Z)
    (self : CheckpointHandler) :
  should_checkpoint rnd now (update e c self)
  = (update e c (should_checkpoint rnd now self).1,
     (should_checkpoint rnd now self).2).
Proof.
  unfold should_checkpoint.
  cbn [last_check_time checkpoint_every start_time max_runtime update
       set_last_check_time].
  destruct (gt (rnd (now - last_check_time self)%Q) (checkpoint_every self));
    [|done].
  by destruct (gt (rnd (now - start_time self)%Q) (max_runtime self)).
Qed.

(** *** The further properties on the concrete instance *)

Definition example_save :=
  save_checkpoint example_state example_state example_state example_state Q
    id id example_file example_dump.

Definition example_load_checkpoint :=
  load_checkpoint example_state example_state Q example_file example_load.

Definition example_second : CheckpointHandler := update 4 0 example_saver.

Definition example_logs2 : gmap string (list Q) :=
  {[ "train_loss"%string := [9 # 10; 7 # 10; 6 # 10]%Q ]}.

(** An experiment name that begins with the separator makes
    [os.path.join] drop the directory, and can name another experiment's
    file. *)
Example absolute_name_collides :
  checkpoint_path (__init__ "/ckpt/drr" 60 3600 (Some "/tmp"%string) "/src" 0)
  = checkpoint_path example_saver.
Proof. reflexivity. Qed.

Lemma save_last_write_wins_witness :
  let fs2 := example_save example_second example_model example_optimizer
               example_logs2
               (example_save example_saver example_model example_optimizer
                  example_logs ∅) in
  fs2 = example_save example_second example_model example_optimizer
          example_logs2 ∅
  ∧ example_load_checkpoint example_loader fs2
    = Returned (update 4 0 example_loader,
                (Some example_model, Some example_optimizer, example_logs2)).
Proof.
  apply (save_last_write_wins example_state example_state example_state
           example_state Q id id example_file example_dump example_load
           (λ c, eq_refl) example_saver example_second example_loader);
    reflexivity.
Defined.

Lemma resume_then_save_keeps_record_witness :
  let fs1 := example_save example_saver example_model example_optimizer
               example_logs ∅ in
  ∃ loader' model_state optimizer_state logs',
    example_load_checkpoint example_loader fs1
    = Returned (loader', (Some model_state, Some optimizer_state, logs'))
    ∧ (example_model = model_state →
       example_optimizer = optimizer_state →
       let fs2 := example_save loader' example_model example_optimizer logs'
                    fs1 in
       persisted_record example_state example_state Q example_file
         example_load fs2 (checkpoint_path example_saver)
       = persisted_record example_state example_state Q example_file
           example_load fs1 (checkpoint_path example_saver)
       ∧ example_load_checkpoint example_loader fs2
         = example_load_checkpoint example_loader fs1).
Proof.
  apply (resume_then_save_keeps_record example_state example_state
           example_state example_state Q id id example_file example_dump
           example_load (λ c, eq_refl) example_saver example_loader
           example_model example_model example_optimizer example_optimizer
           example_logs ∅).
  reflexivity.
Defined.

Lemma should_checkpoint_true_spaced_witness :
  (1 < (56 # 10) - (36 # 10))%Q.
Proof.
  apply (should_checkpoint_true_spaced round_down_8
           (__init__ "exp" 1 2 None "/src" 0)
           [9 # 10; 18 # 10; 36 # 10; 40 # 10; 56 # 10]%Q 2 4).
  - apply round_down_8_monotone.
  - reflexivity.
  - cbn. repeat split; lra.
  - lia.
  - reflexivity.
  - reflexivity.
  - reflexivity.
  - reflexivity.
Defined.

Lemma should_checkpoint_quiet_at_start_witness :
  (poll round_down_8 (__init__ "exp" 5 0 None "/src" 0) [1; 2; 5; 6]%Q).2
    !! 2
  = Some false.
Proof.
  apply (should_checkpoint_quiet_at_start round_down_8 "exp" 5 0 None
           "/src" 0 [1; 2; 5; 6]%Q 2 5).
  - apply round_down_8_monotone.
  - reflexivity.
  - cbn. repeat split; lra.
  - reflexivity.
  - lra.
Defined.

End CheckpointHandler.

(* ===================================================================== *)
(** * DistributedOptimizationProcedures/DrrProcedure.py *)
(* ===================================================================== *)

Module DrrProcedure.

(** Floating-point arithmetic is kept abstract: one carrier for Python floats
    and tensor elements, with the operations the source applies to them.
    Every statement below holds for any interpretation of them.
    [float_of_int n] is the float Python converts the [int] [n] to when it
    meets a float in a product, and [None] for an [int] beyond the float
    range, where the conversion raises [OverflowError]; a [bool] is 0 or 1
    and always converts. *)
Class FloatOps (F : Type) : Type := {
  fadd : F → F → F;
  fmul : F → F → F;
  fneg : F → F;
  fsign : F → F;
  fexp : F → F;
  fabs : F → F;
  float_of_int : Z → option F;
  float_of_bool : bool → F
}.

(** The Python values a hyperparameter may be bound to. *)
Inductive pyval (F : Type) : Type :=
  | PyNone
  | PyBool (b : bool)
  | PyInt (n : Z)
  | PyFloat (x : F)
  | PyStr (s : string).
Arguments PyNone {F}.
Arguments PyBool {F} b.
Arguments PyInt {F} n.
Arguments PyFloat {F} x.
Arguments PyStr {F} s.

(** A symbolic interpretation: floats as the expressions that compute
    them.  Running the code on it shows the operations and their order. *)
Inductive term : Type :=
  | Var (name : string)
  | Add (s t : term)
  | Mul (s t : term)
  | Neg (t : term)
  | Sign (t : term)
  | Exp (t : term)
  | Abs (t : term)
  | OfInt (n : Z).

(** An [int] converts to a double when it rounds to a finite one, that is
    when its absolute value is below [2^1024 - 2^970]. *)
Definition int_in_float_range (n : Z) : bool :=
  (Z.abs n <? 2 ^ 1024 - 2 ^ 970)%Z.

#[local] Instance term_ops : FloatOps term :=
  {| fadd := Add; fmul := Mul; fneg := Neg; fsign := Sign; fexp := Exp;
     fabs := Abs;
     float_of_int := λ n, if int_in_float_range n then Some (OfInt n)
                          else None;
     float_of_bool := λ b, OfInt (if b then 1 else 0) |}.

Section Drr.
Context {F : Type} `{FloatOps F}.

(** A tensor, flattened; a gradient has the shape of its parameter. *)
Definition tensor : Type := list F.

(** [torch.nn.parameter.Parameter] *)
Record TorchParameter : Type := {
  data : tensor;
  grad : option tensor    (* [None] when no gradient was computed *)
}.

(** What [ProcedureTrainer.__init__] leaves on [self], as far as this file
    uses it.  The base class (BaseProcedure.py) is not among the sources, so
    the outcome of [super().__init__] is an argument of [__init__]. *)
Record ProcedureTrainer : Type := {
  args : gmap string (pyval F);
  ddp_model : list TorchParameter    (* self.ddp_model.parameters() *)
}.

Record DrrTrainer : Type := {
  base : ProcedureTrainer;
  alpha : pyval F;
  beta : pyval F
}.

(** [d[k]] *)
Definition dict_get (d : gmap string (pyval F)) (k : string)
    : outcome (pyval F) :=
  match d !! k with
  | Some v => Returned v
  | None => Raised (KeyError k)
  end.

(** [isinstance(v, float)]; [bool] and [int] are not subclasses of [float]. *)
Definition isinstance_float (v : pyval F) : bool :=
  match v with PyFloat _ => true | _ => false end.

(** [__init__] *)
Definition __init__ (super_init : outcome ProcedureTrainer)
    : outcome DrrTrainer :=
  self ← super_init;
  b ← dict_get (args self) "beta";
  _ ← py_assert (isinstance_float b) BetaMustBeFloat;
  a ← dict_get (args self) "alpha";
  b ← dict_get (args self) "beta";
  mret {| base := self; alpha := a; beta := b |}.

(** The float a value stands for as an operand of [*] with a float: a
    float is itself, an [int] or a [bool] is converted, and the conversion
    of an [int] beyond the float range raises [OverflowError]; a [str] or
    [None] operand raises [TypeError].  A trainer that [__init__] returned
    has a float [beta], so that [alpha * beta] is such a product: the
    statements below about other values of [alpha] are for a float
    [beta]. *)
Definition to_float (v : pyval F) : outcome F :=
  match v with
  | PyFloat x => Returned x
  | PyInt n =>
      match float_of_int n with
      | Some x => Returned x
      | None => Raised OverflowError
      end
  | PyBool b => Returned (float_of_bool b)
  | PyStr _ | PyNone => Raised TypeError
  end.

(** The values that convert: a float, a [bool], an [int] within the float
    range. *)
Definition converts_to_float (v : pyval F) : Prop :=
  match v with
  | PyFloat _ | PyBool _ => True
  | PyInt n => is_Some (float_of_int n)
  | PyStr _ | PyNone => False
  end.

Definition torch_sign (t : tensor) : tensor := fsign <$> t.
Definition torch_abs (t : tensor) : tensor := fabs <$> t.
Definition torch_exp (t : tensor) : tensor := fexp <$> t.
(** [c * t] for a Python float [c] *)
Definition scalar_mul (c : F) (t : tensor) : tensor := fmul c <$> t.
(** [s * t] for two tensors of one shape *)
Definition tensor_mul (s t : tensor) : tensor := zip_with fmul s t.
(** [g += t] *)
Definition tensor_iadd (g t : tensor) : tensor := zip_with fadd g t.

(** [modify_grad]: the parameter after the call. *)
Definition modify_grad (self : DrrTrainer) (param : TorchParameter)
    : outcome TorchParameter :=
  match grad param with
  | Some g =>
      a ← to_float (alpha self);
      b ← to_float (beta self);
      let ab := fmul a b in
      let lhs := tensor_mul (scalar_mul ab (torch_sign (data param)))
                   (torch_exp (scalar_mul (fneg b) (torch_abs (data param)))) in
      mret {| data := data param; grad := Some (tensor_iadd g lhs) |}
  | None => mret param
  end.

(** The loop of [modify_grads] over the parameters still to visit. *)
Fixpoint modify_grads_loop (self : DrrTrainer) (params : list TorchParameter)
    : outcome (list TorchParameter) :=
  match params with
  | [] => mret []
  | param :: rest =>
      param' ← modify_grad self param;
      rest' ← modify_grads_loop self rest;
      mret (param' :: rest')
  end.

(** [modify_grads]: the parameters of the model after the call. *)
Definition modify_grads (self : DrrTrainer) : outcome (list TorchParameter) :=
  modify_grads_loop self (ddp_model (base self)).

(** The regularisation term for one element [w], as the source evaluates
    it: [alpha * beta * sign(w) * exp(-beta * |w|)]. *)
Definition drr_term (a b w : F) : F :=
  fmul (fmul (fmul a b) (fsign w)) (fexp (fmul (fneg b) (fabs w))).

(** What one call does to one parameter. *)
Definition drr_modified (a b : F) (p p' : TorchParameter) : Prop :=
  match grad p with
  | None => p' = p
  | Some g =>
      data p' = data p
      ∧ grad p' = Some (zip_with (λ gj wj, fadd gj (drr_term a b wj))
                          g (data p))
  end.

(** *** Helper lemmas *)

Lemma tensor_update_elementwise (a b : F) (g w : tensor) :
  tensor_iadd g
    (tensor_mul (scalar_mul (fmul a b) (torch_sign w))
       (torch_exp (scalar_mul (fneg b) (torch_abs w))))
  = zip_with (λ gj wj, fadd gj (drr_term a b wj)) g w.
Proof.
  unfold tensor_iadd, tensor_mul, scalar_mul, torch_sign, torch_exp,
    torch_abs.
  revert g. induction w as [|wj w IH]; intros [|gj g]; try done.
  cbn. by rewrite IH.
Qed.

Lemma modify_grad_float (a b : F) base_ (p : TorchParameter) :
  ∃ p', modify_grad {| base := base_; alpha := PyFloat a; beta := PyFloat b |} p
        = Returned p'
        ∧ drr_modified a b p p'.
Proof.
  unfold modify_grad, drr_modified. destruct (grad p) as [g|] eqn:Hg; cbn.
  - eexists. split; [done|]. cbn. by rewrite tensor_update_elementwise.
  - by exists p.
Qed.

Lemma modify_grads_loop_float (a b : F) base_ (params : list TorchParameter) :
  ∃ params',
    modify_grads_loop {| base := base_; alpha := PyFloat a; beta := PyFloat b |}
      params = Returned params'
    ∧ Forall2 (drr_modified a b) params params'.
Proof.
  induction params as [|p params (params' & Hloop & Hall)].
  - by exists [].
  - destruct (modify_grad_float a b base_ p) as (p' & Hp & Hmod).
    exists (p' :: params'). cbn [modify_grads_loop].
    rewrite Hp. cbn. rewrite Hloop. cbn. split; [done|].
    by constructor.
Qed.

(** *** Claims *)

(** C3. One call of [modify_grads] with float hyperparameters [alpha] and
    [beta] returns normally; it visits every parameter of the model, leaves
    a parameter without gradient untouched, and for a parameter with value
    [w] and gradient [g] keeps [w] and makes the gradient, element by
    element, [g + alpha*beta*sign(w)*exp(-beta*|w|)]. *)
Theorem modify_grads_adds_drr_term (a b : F) (base_ : ProcedureTrainer) :
  let self := {| base := base_; alpha := PyFloat a; beta := PyFloat b |} in
  ∃ params',
    modify_grads self = Returned params'
    ∧ length params' = length (ddp_model base_)
    ∧ ∀ i p, ddp_model base_ !! i = Some p →
        ∃ p', params' !! i = Some p'
          ∧ data p' = data p
          ∧ match grad p with
            | None => p' = p
            | Some g =>
                grad p' =
                  Some (zip_with
                          (λ gj wj,
                             fadd gj
                               (fmul (fmul (fmul a b) (fsign wj))
                                  (fexp (fmul (fneg b) (fabs wj)))))
                          g (data p))
            end.
Proof.
  intros self.
  destruct (modify_grads_loop_float a b base_ (ddp_model base_))
    as (params' & Hrun & Hall).
  exists params'. split; [done|].
  split; [symmetry; by eapply Forall2_length|].
  intros i p Hp.
  destruct (Forall2_lookup_l _ _ _ _ _ Hall Hp) as (p' & Hp' & Hmod).
  exists p'. split; [done|]. unfold drr_modified in Hmod.
  destruct (grad p) as [g|]; [|by subst]. by destruct Hmod.
Qed.

(** C7, at the input on which the code departs from it.  [__init__] checks
    [beta] only: with a string for [alpha] and a float for [beta] the
    constructor returns a trainer. *)
Theorem init_accepts_string_alpha (x : F) (model : list TorchParameter) :
  let hyper : gmap string (pyval F) :=
    {[ "alpha"%string := PyStr "0.1"; "beta"%string := PyFloat x ]} in
  let super := {| args := hyper; ddp_model := model |} in
  __init__ (Returned super)
  = Returned {| base := super; alpha := PyStr "0.1"; beta := PyFloat x |}.
Proof. reflexivity. Qed.

(** The check that is there: a [beta] that is not a float stops the
    constructor with the assertion's diagnostic. *)
Lemma init_rejects_non_float_beta (super : ProcedureTrainer) (v : pyval F) :
  args super !! "beta"%string = Some v → isinstance_float v = false →
  __init__ (Returned super)
  = Raised (AssertionError BetaMustBeFloat).
Proof.
  intros Hv Hf. unfold __init__. cbn. unfold dict_get.
  rewrite Hv. cbn. by rewrite Hf.
Qed.

(** The trainer built with a string [alpha] fails only later, at the first
    parameter that has a gradient. *)
Lemma string_alpha_fails_in_training (x : F) super s (p : TorchParameter)
    (rest : list TorchParameter) (g : tensor) :
  grad p = Some g →
  modify_grads_loop {| base := super; alpha := PyStr s; beta := PyFloat x |}
    (p :: rest) = Raised TypeError.
Proof. intros Hg. cbn. unfold modify_grad. by rewrite Hg. Qed.

(** *** Further properties *)

(** The trainer [self] with the parameters of its model replaced: the model
    as a call of [modify_grads] leaves it. *)
Definition with_parameters (self : DrrTrainer)
    (params : list TorchParameter) : DrrTrainer :=
  {| base := {| args := args (base self); ddp_model := params |};
     alpha := alpha self;
     beta := beta self |}.

Lemma to_float_returns (v : pyval F) :
  (∃ a, to_float v = Returned a) ↔ converts_to_float v.
Proof.
  destruct v as [| |n| |]; cbn; try (split; [done|by eexists]);
    try (split; [by intros [? ?]|done]).
  destruct (float_of_int n) as [x|].
  - split; [by eexists|by eexists].
  - split; [by intros [? ?]|by intros [? ?]].
Qed.

Lemma to_float_raises (v : pyval F) (e : exn) :
  to_float v = Raised e →
  (e = TypeError ∧ (v = PyNone ∨ ∃ s, v = PyStr s))
  ∨ (e = OverflowError ∧ ∃ n, v = PyInt n ∧ float_of_int n = None).
Proof.
  destruct v as [| |n| |s]; cbn; try congruence.
  - intros [= <-]. left. split; [done|by left].
  - destruct (float_of_int n) eqn:Hn; [done|]. intros [= <-].
    right. split; [done|]. by exists n.
  - intros [= <-]. left. split; [done|]. right. by exists s.
Qed.

Lemma modify_grads_loop_numeric (self : DrrTrainer) (a b : F)
    (params : list TorchParameter) :
  to_float (alpha self) = Returned a → to_float (beta self) = Returned b →
  ∃ params',
    modify_grads_loop self params = Returned params'
    ∧ Forall2 (drr_modified a b) params params'.
Proof.
  intros Ha Hb. induction params as [|p params (params' & Hloop & Hall)].
  - by exists [].
  - assert (∃ p', modify_grad self p = Returned p' ∧ drr_modified a b p p')
      as (p' & Hp & Hmod).
    { unfold modify_grad, drr_modified.
      destruct (grad p) as [g|] eqn:Hg; [|by exists p].
      rewrite Ha, Hb. cbn. eexists. split; [done|]. cbn.
      by rewrite tensor_update_elementwise. }
    exists (p' :: params'). cbn [modify_grads_loop].
    rewrite Hp. cbn. rewrite Hloop. cbn. split; [done|]. by constructor.
Qed.

Lemma modify_grads_loop_no_gradients (self : DrrTrainer)
    (params : list TorchParameter) :
  Forall (λ p, grad p = None) params →
  modify_grads_loop self params = Returned params.
Proof.
  induction 1 as [|p params Hp _ IH]; [done|].
  cbn [modify_grads_loop]. unfold modify_grad. rewrite Hp. cbn.
  by rewrite IH.
Qed.

(** The first parameter with a gradient makes the loop evaluate
    [alpha * beta]: a failure of the conversion of [alpha] ends the call. *)
Lemma modify_grads_loop_alpha_error (self : DrrTrainer) (e : exn)
    (params : list TorchParameter) :
  to_float (alpha self) = Raised e →
  Exists (λ p, grad p ≠ None) params →
  modify_grads_loop self params = Raised e.
Proof.
  intros Hbad. induction params as [|p params IH]; intros Hex.
  { by apply Exists_nil in Hex. }
  cbn [modify_grads_loop]. unfold modify_grad.
  destruct (grad p) as [g|] eqn:Hg.
  - by rewrite Hbad.
  - cbn. rewrite IH; [done|].
    apply Exists_cons in Hex as [Hex|Hex]; [|done]. by rewrite Hg in Hex.
Qed.

Lemma zip_with_twice {A B} (f : A → B → A) (g : list A) (w : list B) :
  zip_with f (zip_with f g w) w = zip_with (λ x y, f (f x y) y) g w.
Proof.
  revert g. induction w as [|y w IH]; intros [|x g]; try done.
  cbn. by rewrite IH.
Qed.

(** X7. [__init__] returns a trainer exactly when [self.args] has an
    ["alpha"] entry and a ["beta"] entry whose value is a float; the
    trainer then carries these two values and the object the base
    constructor left. *)
Theorem init_returns_iff (super : ProcedureTrainer) :
  ((∃ trainer, __init__ (Returned super) = Returned trainer)
   ↔ ∃ a x, args super !! "alpha"%string = Some a
            ∧ args super !! "beta"%string = Some (PyFloat x))
  ∧ ∀ trainer, __init__ (Returned super) = Returned trainer →
      base trainer = super
      ∧ args super !! "alpha"%string = Some (alpha trainer)
      ∧ args super !! "beta"%string = Some (beta trainer).
Proof.
  unfold __init__. cbn [mbind outcome_bind]. unfold dict_get.
  destruct (args super !! "beta"%string) as [b|] eqn:Hb;
    cbn [mbind outcome_bind];
    [|split; [split; [by intros [? ?]|by intros (? & ? & _ & ?)]|done]].
  destruct b as [| | |x|]; cbn [isinstance_float py_assert mbind outcome_bind];
    try (split; [split; [by intros [? ?]|by intros (? & ? & _ & ?)]|done]).
  destruct (args super !! "alpha"%string) as [a|] eqn:Ha;
    cbn [mbind outcome_bind mret outcome_ret].
  - split.
    + split; [by exists a, x|by eexists].
    + by intros trainer [= <-].
  - split; [split; [by intros [? ?]|by intros (? & ? & ? & _)]|done].
Qed.

(** X8. The order of the failures of [__init__]: a missing ["beta"] raises
    [KeyError] and a ["beta"] that is not a float (an [int] or a [bool]
    included) raises [AssertionError], both whatever ["alpha"] is; a
    missing ["alpha"] raises [KeyError] only once ["beta"] has passed; an
    exception of the base constructor is passed on. *)
Theorem init_failures (super : ProcedureTrainer) :
  (args super !! "beta"%string = None →
     __init__ (Returned super) = Raised (KeyError "beta"))
  ∧ (∀ v, args super !! "beta"%string = Some v →
       (∀ x, v ≠ PyFloat x) →
       __init__ (Returned super) = Raised (AssertionError BetaMustBeFloat))
  ∧ (∀ x, args super !! "beta"%string = Some (PyFloat x) →
       args super !! "alpha"%string = None →
       __init__ (Returned super) = Raised (KeyError "alpha"))
  ∧ ∀ e, __init__ (Raised e) = Raised e.
Proof.
  unfold __init__. cbn [mbind outcome_bind]. unfold dict_get.
  split; [by intros ->|]. split; [|split; [|done]].
  - intros v -> Hv. destruct v as [| | |x|]; try done. by destruct (Hv x).
  - by intros x -> ->.
Qed.

(** X9. When no parameter has a gradient, [modify_grads] returns and leaves
    every parameter as it was, whatever the hyperparameters are: they are
    not even read. *)
Theorem modify_grads_without_gradients (self : DrrTrainer) :
  Forall (λ p, grad p = None) (ddp_model (base self)) →
  modify_grads self = Returned (ddp_model (base self)).
Proof. apply modify_grads_loop_no_gradients. Qed.

(** X10. On a trainer whose [beta] is a float, as [__init__] leaves it,
    [modify_grads] returns exactly when no parameter has a gradient or
    [alpha] is a float, a [bool] or an [int] within the float range.
    Otherwise it raises: [TypeError] when [alpha] is a [str] or [None],
    [OverflowError] when [alpha] is an [int] beyond the float range. *)
Theorem modify_grads_returns_iff (self : DrrTrainer) (b : F) :
  beta self = PyFloat b →
  ((∃ params', modify_grads self = Returned params')
   ↔ Forall (λ p, grad p = None) (ddp_model (base self))
     ∨ converts_to_float (alpha self))
  ∧ ((¬ ∃ params', modify_grads self = Returned params') →
     (modify_grads self = Raised TypeError
      ∧ (alpha self = PyNone ∨ ∃ s, alpha self = PyStr s))
     ∨ (modify_grads self = Raised OverflowError
        ∧ ∃ n, alpha self = PyInt n ∧ float_of_int n = None)).
Proof.
  intros Hbeta. unfold modify_grads.
  destruct (decide (Forall (λ p, grad p = None) (ddp_model (base self))))
    as [Hnone|Hsome].
  { rewrite modify_grads_loop_no_gradients by done.
    split; [split; [by left|by eexists]|]. intros []. by eexists. }
  pose proof Hsome as Hnot.
  apply not_Forall_Exists in Hsome; [|intros p; apply _].
  change (Exists (λ p, grad p ≠ None) (ddp_model (base self))) in Hsome.
  destruct (to_float (alpha self)) as [a|e] eqn:Ha.
  - destruct (modify_grads_loop_numeric self a b (ddp_model (base self)))
      as (params' & -> & _); [done|by rewrite Hbeta|].
    split.
    + split; [|by eexists]. intros _. right.
      apply to_float_returns. by exists a.
    + intros []. by eexists.
  - rewrite (modify_grads_loop_alpha_error self e) by done.
    split.
    + split; [by intros [? ?]|]. intros [Hnone|Hconv]; [done|].
      apply to_float_returns in Hconv as [a Hconv]. congruence.
    + intros _.
      destruct (to_float_raises _ _ Ha) as [[-> Hv]|[-> Hv]];
        [by left|by right].
Qed.

(** X11. [modify_grads] is not idempotent: called twice on the same weights
    it adds the term [alpha*beta*sign(w)*exp(-beta*|w|)] twice to every
    gradient, and still leaves weights and absent gradients alone. *)
Theorem modify_grads_twice (a b : F) (base_ : ProcedureTrainer) :
  let self := {| base := base_; alpha := PyFloat a; beta := PyFloat b |} in
  ∃ once twice,
    modify_grads self = Returned once
    ∧ modify_grads (with_parameters self once) = Returned twice
    ∧ Forall2
        (λ p p2,
           data p2 = data p
           ∧ grad p2
             = (λ g, zip_with
                       (λ gj wj,
                          fadd (fadd gj (drr_term a b wj)) (drr_term a b wj))
                       g (data p)) <$> grad p)
        (ddp_model base_) twice.
Proof.
  intros self.
  destruct (modify_grads_loop_numeric self a b (ddp_model base_))
    as (once & Hone & Hall1); [done..|].
  destruct (modify_grads_loop_numeric (with_parameters self once) a b once)
    as (twice & Htwo & Hall2); [done..|].
  exists once, twice. split; [done|]. split; [done|].
  clear Hone Htwo. revert twice Hall2.
  induction Hall1 as [|p p1 l l1 Hp _ IH]; intros twice Hall2.
  - apply Forall2_nil_inv_l in Hall2 as ->. constructor.
  - apply Forall2_cons_inv_l in Hall2 as (p2 & l2 & Hp2 & Hl2 & ->).
    constructor; [|by apply IH].
    unfold drr_modified in Hp, Hp2. destruct (grad p) as [g|] eqn:Hg.
    + destruct Hp as [Hd1 Hg1]. rewrite Hg1 in Hp2.
      destruct Hp2 as [Hd2 Hg2]. rewrite Hd1 in Hd2, Hg2.
      split; [done|]. cbn. rewrite Hg2. f_equal.
      apply (zip_with_twice (λ gj wj, fadd gj (drr_term a b wj))).
    + subst p1. rewrite Hg in Hp2. subst p2. by rewrite Hg.
Qed.

End Drr.

(** *** Examples on the symbolic interpretation *)

Example modify_grads_symbolic :
  modify_grads
    {| base :=
         {| args := ∅;
            ddp_model :=
              [ {| data := [Var "w0"; Var "w1"];
                   grad := Some [Var "g0"; Var "g1"] |};
                {| data := [Var "v"]; grad := None |} ] |};
       alpha := PyFloat (Var "alpha");
       beta := PyFloat (Var "beta") |}
  = Returned
      [ {| data := [Var "w0"; Var "w1"];
           grad :=
             Some
               [ Add (Var "g0")
                   (Mul (Mul (Mul (Var "alpha") (Var "beta"))
                           (Sign (Var "w0")))
                      (Exp (Mul (Neg (Var "beta")) (Abs (Var "w0")))));
                 Add (Var "g1")
                   (Mul (Mul (Mul (Var "alpha") (Var "beta"))
                           (Sign (Var "w1")))
                      (Exp (Mul (Neg (Var "beta")) (Abs (Var "w1"))))) ] |};
        {| data := [Var "v"]; grad := None |} ].
Proof. reflexivity. Qed.

Example init_with_int_beta :
  __init__
    (Returned {| args := {[ "alpha"%string := PyFloat (Var "a");
                          "beta"%string := PyInt 5 ]};
                 ddp_model := [] |})
  = Raised (AssertionError BetaMustBeFloat).
Proof. reflexivity. Qed.

Example init_without_beta :
  __init__
    (Returned {| args := {[ "alpha"%string := PyFloat (Var "a") ]};
                 ddp_model := [] |})
  = Raised (KeyError "beta").
Proof. reflexivity. Qed.

Lemma modify_grads_without_gradients_witness :
  modify_grads
    {| base := {| args := ∅;
                  ddp_model := [ {| data := [Var "w"]; grad := None |};
                                 {| data := []; grad := None |} ] |};
       alpha := PyStr "0.1";
       beta := PyNone |}
  = Returned [ {| data := [Var "w"]; grad := None |};
               {| data := []; grad := None |} ].
Proof.
  apply (modify_grads_without_gradients
           {| base := {| args := ∅;
                         ddp_model := [ {| data := [Var "w"]; grad := None |};
                                        {| data := []; grad := None |} ] |};
              alpha := PyStr "0.1";
              beta := PyNone |}).
  repeat constructor.
Defined.

(** An [int] for [alpha] that no float holds: the product [alpha * beta]
    raises at the first parameter with a gradient. *)
Definition example_overflowing : @DrrTrainer term :=
  {| base := {| args := ∅;
                ddp_model := [ {| data := [Var "v"]; grad := None |};
                               {| data := [Var "w"];
                                  grad := Some [Var "g"] |} ] |};
     alpha := PyInt (10 ^ 400);
     beta := PyFloat (Var "beta") |}.

Example modify_grads_int_alpha_overflows :
  modify_grads example_overflowing = Raised OverflowError.
Proof. reflexivity. Qed.

Example modify_grads_int_alpha_in_range :
  modify_grads
    {| base := base example_overflowing;
       alpha := PyInt 2;
       beta := PyFloat (Var "beta") |}
  = Returned
      [ {| data := [Var "v"]; grad := None |};
        {| data := [Var "w"];
           grad :=
             Some
               [ Add (Var "g")
                   (Mul (Mul (Mul (OfInt 2) (Var "beta")) (Sign (Var "w")))
                      (Exp (Mul (Neg (Var "beta")) (Abs (Var "w"))))) ] |} ].
Proof. reflexivity. Qed.

Lemma modify_grads_returns_iff_witness :
  ((∃ params', modify_grads example_overflowing = Returned params')
   ↔ Forall (λ p, grad p = None) (ddp_model (base example_overflowing))
     ∨ converts_to_float (alpha example_overflowing))
  ∧ ((¬ ∃ params', modify_grads example_overflowing = Returned params') →
     (modify_grads example_overflowing = Raised TypeError
      ∧ (alpha example_overflowing = PyNone
         ∨ ∃ s, alpha example_overflowing = PyStr s))
     ∨ (modify_grads example_overflowing = Raised OverflowError
        ∧ ∃ n, alpha example_overflowing = PyInt n
               ∧ float_of_int n = None)).
Proof.
  apply (modify_grads_returns_iff example_overflowing (Var "beta")).
  reflexivity.
Defined.

End DrrProcedure.

(* ===================================================================== *)
(** * Datasets/Wiki40BDataset.py *)
(* ===================================================================== *)

Module Wiki40BDataset.

(** Python [bytes]: immutable. *)
Abbreviation bytes := (list Byte.byte).

(** ** The datasets as values *)

(** [ByteWikipediaDataset] *)
Record ByteWikipediaDataset : Type := {
  data : list bytes;
  split : string
}.

(** [__len__] *)
Definition __len__ (self : ByteWikipediaDataset) : Z :=
  Z.of_nat (length (data self)).

(** [__getitem__]: [np.frombuffer(..., dtype=np.uint8)] reads each byte as
    an integer, and [.long()] keeps its value. *)
Definition __getitem__ (self : ByteWikipediaDataset) (idx : Z)
    : outcome (list Z) :=
  seq ← py_index (data self) idx;
  mret (List.map (λ b, Z.of_N (Byte.to_N b)) seq).

(** [WikipediaDatasets] *)
Record WikipediaDatasets : Type := {
  train : ByteWikipediaDataset;
  validation : ByteWikipediaDataset;
  test : ByteWikipediaDataset;
  sequence_length : Z
}.

(** What [tfds.load('wiki40b/en', split=[...])] yields: per split, the
    examples in order, each given as the UTF-8 encoding of its text (the
    source decodes and re-encodes it, which gives the same bytes back). *)
Record Wiki40B : Type := {
  wiki_train : list bytes;
  wiki_validation : list bytes;
  wiki_test : list bytes
}.

(** ** [create_and_save_dataset] *)

(** The inner [while len(current_chunk) >= sequence_length] loop.  It need
    not end (it does not for [sequence_length <= 0]), so it runs on fuel:
    [None] means the fuel ran out. *)
Fixpoint cut_chunks (fuel : nat) (sequence_length : Z)
    (current_chunk : bytes) (processed : list bytes)
    : option (bytes * list bytes) :=
  match fuel with
  | O => None
  | S fuel' =>
      if (sequence_length <=? Z.of_nat (length current_chunk))%Z then
        let chunk := py_slice current_chunk None (Some sequence_length) in
        let current_chunk' :=
          py_slice current_chunk (Some sequence_length) None in
        cut_chunks fuel' sequence_length current_chunk'
          (processed ++ [chunk])
      else Some (current_chunk, processed)
  end.

(** The [for example in data] loop. *)
Fixpoint consume_examples (fuel : nat) (sequence_length : Z)
    (examples : list bytes) (current_chunk : bytes) (processed : list bytes)
    : option (bytes * list bytes) :=
  match examples with
  | [] => Some (current_chunk, processed)
  | byte_encoded :: rest =>
      '(current_chunk', processed') ←
        cut_chunks fuel sequence_length (current_chunk ++ byte_encoded)
          processed;
      consume_examples fuel sequence_length rest current_chunk' processed'
  end.

(** [b'\0' * n] *)
Definition zero_bytes (n : Z) : bytes := replicate (Z.to_nat n) Byte.x00.

(** "Handle the last chunk" *)
Definition last_chunk (sequence_length : Z) (current_chunk : bytes)
    (processed : list bytes) : list bytes :=
  match current_chunk with
  | [] => processed
  | _ :: _ =>
      let n := Z.of_nat (length current_chunk) in
      let current_chunk' :=
        if (n <? sequence_length)%Z
        then current_chunk ++ zero_bytes (sequence_length - n)
        else current_chunk in
      processed ++ [py_slice current_chunk' None (Some sequence_length)]
  end.

(** One iteration of the loop over the splits: [processed_data[split]]. *)
Definition process_split (fuel : nat) (sequence_length : Z)
    (examples : list bytes) : option (list bytes) :=
  '(current_chunk, processed) ←
    consume_examples fuel sequence_length examples [] [];
  Some (last_chunk sequence_length current_chunk processed).

(** [create_and_save_dataset]: the datasets returned and the file system
    after [torch.save]; a saved file holds the datasets object.  The file
    system here is that of the dataset files [torch.save] writes: what
    [tfds.load] downloads and caches on disk is outside it, and the corpus
    it yields is the argument [wiki_data]. *)
Definition create_and_save_dataset (fuel : nat) (sequence_length : Z)
    (save_path : string) (wiki_data : Wiki40B)
    (fs : gmap string WikipediaDatasets)
    : option (WikipediaDatasets * gmap string WikipediaDatasets) :=
  tr ← process_split fuel sequence_length (wiki_train wiki_data);
  va ← process_split fuel sequence_length (wiki_validation wiki_data);
  te ← process_split fuel sequence_length (wiki_test wiki_data);
  let datasets :=
    {| train := {| data := tr; split := "train" |};
       validation := {| data := va; split := "validation" |};
       test := {| data := te; split := "test" |};
       sequence_length := sequence_length |} in
  Some (datasets, <[save_path := datasets]> fs).

(** The number of bytes of a list of examples. *)
Definition total_bytes (examples : list bytes) : nat :=
  length (concat examples).

(** ** [get_subset], on a store of objects *)

(** [get_subset] copies its argument and assigns to an attribute of the
    copy, so datasets and their lists are objects in a store here; a bytes
    object is immutable and is kept by value. *)
Abbreviation loc := positive.

Inductive object : Type :=
  | ListObject (items : list bytes)
  | DatasetObject (data_ref : loc) (split_name : string).

Abbreviation heap := (gmap loc object).

Definition alloc (o : object) (h : heap) : loc * heap :=
  let l := fresh (dom h) in (l, <[l := o]> h).

(** [dataset.data], as the list object's location and its items. *)
Definition get_data (dataset : loc) (h : heap)
    : outcome (loc * string * list bytes) :=
  match h !! dataset with
  | Some (DatasetObject d sp) =>
      match h !! d with
      | Some (ListObject items) => Returned (d, sp, items)
      | _ => Raised TypeError
      end
  | _ => Raised TypeError
  end.

(** The dataset value an object stands for. *)
Definition dataset_at (h : heap) (l : loc) : option ByteWikipediaDataset :=
  match get_data l h with
  | Returned (_, sp, items) => Some {| data := items; split := sp |}
  | Raised _ => None
  end.

(** [copy.deepcopy(dataset)]: a new dataset object with a new list; the
    bytes objects and the split name are immutable and shared. *)
Definition deepcopy (dataset : loc) (h : heap) : outcome (loc * heap) :=
  '(_, sp, items) ← get_data dataset h;
  let '(d', h1) := alloc (ListObject items) h in
  let '(subset, h2) := alloc (DatasetObject d' sp) h1 in
  mret (subset, h2).

(** [a % b] and [a // b] on integers *)
Definition py_mod (a b : Z) : outcome Z :=
  if (b =? 0)%Z then Raised ZeroDivisionError else Returned (a `mod` b)%Z.

Definition py_floordiv (a b : Z) : outcome Z :=
  if (b =? 0)%Z then Raised ZeroDivisionError else Returned (a `div` b)%Z.

(** [get_subset]: the location of the returned dataset and the store after
    the call. *)
Definition get_subset (start_token end_token : Z) (dataset : loc) (h : heap)
    : outcome (loc * heap) :=
  '(_, _, items) ← get_data dataset h;
  first ← py_index items 0;
  let sequence_length := Z.of_nat (length first) in
  r ← py_mod start_token sequence_length;
  _ ← py_assert (r =? 0)%Z (StartTokenNotMultiple sequence_length);
  r ← py_mod end_token sequence_length;
  _ ← py_assert (r =? 0)%Z (EndTokenNotMultiple sequence_length);
  _ ← py_assert (start_token <? end_token)%Z StartNotSmallerThanEnd;
  start_chunk ← py_floordiv start_token sequence_length;
  end_chunk ← py_floordiv end_token sequence_length;
  '(subset, h1) ← deepcopy dataset h;
  '(_, sp, copied) ← get_data subset h1;
  let '(sliced, h2) :=
    alloc (ListObject (py_slice copied (Some start_chunk) (Some end_chunk)))
      h1 in
  mret (subset, <[subset := DatasetObject sliced sp]> h2).

(** The objects a successful [get_subset] adds to the store [h] of a dataset
    with split name [sp] and chunks [items]: the two objects of the deep
    copy, then the sliced list the copy's [data] is set to.  The first
    component is the location of the returned dataset. *)
Definition subset_result (start_chunk end_chunk : Z) (sp : string)
    (items : list bytes) (h : heap) : loc * heap :=
  let d' := fresh (dom h) in
  let h1 := <[d' := ListObject items]> h in
  let subset := fresh (dom h1) in
  let h2 := <[subset := DatasetObject d' sp]> h1 in
  let sliced := fresh (dom h2) in
  (subset,
   <[subset := DatasetObject sliced sp]>
     (<[sliced :=
          ListObject (py_slice items (Some start_chunk) (Some end_chunk))]>
        h2)).

(** A store with one dataset, for the examples: the dataset at location 1,
    its list at location 2. *)
Definition store_of (items : list bytes) (sp : string) : heap :=
  {[ 1%positive := DatasetObject 2 sp; 2%positive := ListObject items ]}.

(** Three chunks of two bytes, and a small corpus. *)
Definition example_chunks : list bytes :=
  [ [Byte.x61; Byte.x62]; [Byte.x63; Byte.x64]; [Byte.x65; Byte.x66] ].

Definition example_wiki : Wiki40B :=
  {| wiki_train := [ [Byte.x61; Byte.x62; Byte.x63]; [Byte.x64; Byte.x65] ];
     wiki_validation := [ [Byte.x66] ];
     wiki_test := [] |}.

(** A chunk of the required length. *)
Definition chunk_ok (sequence_length : Z) (chunk : bytes) : Prop :=
  Z.of_nat (length chunk) = sequence_length.

(** ** Helper lemmas: slices *)

Lemma py_slice_prefix {A} (xs : list A) (n : Z) :
  (0 <= n <= Z.of_nat (length xs))%Z →
  py_slice xs None (Some n) = take (Z.to_nat n) xs.
Proof.
  intros Hn. unfold py_slice, clamp_bound.
  destruct (Z.ltb_spec n 0); [lia|].
  rewrite Z.min_l by lia. cbn. by rewrite Z.sub_0_r.
Qed.

Lemma py_slice_suffix {A} (xs : list A) (n : Z) :
  (0 <= n <= Z.of_nat (length xs))%Z →
  py_slice xs (Some n) None = drop (Z.to_nat n) xs.
Proof.
  intros Hn. unfold py_slice, clamp_bound.
  destruct (Z.ltb_spec n 0); [lia|].
  rewrite Z.min_l by lia. apply take_ge. rewrite length_drop. lia.
Qed.

Lemma py_slice_from_zero {A} (xs : list A) (n : Z) :
  (0 <= n)%Z →
  py_slice xs (Some 0%Z) (Some n) = take (Z.to_nat n) xs.
Proof.
  intros Hn. unfold py_slice, clamp_bound.
  destruct (Z.ltb_spec n 0); [lia|].
  change (0 <? 0)%Z with false. cbv iota.
  rewrite (Z.min_l 0) by lia. rewrite Z.sub_0_r.
  change (drop (Z.to_nat 0) xs) with xs.
  destruct (Z.min_spec n (Z.of_nat (length xs))) as [[_ ->]|[Hle ->]];
    [done|].
  rewrite Nat2Z.id. rewrite !take_ge; [done|lia..].
Qed.

Lemma py_index_elem {A} (xs : list A) (i : Z) (x : A) :
  py_index xs i = Returned x → x ∈ xs.
Proof.
  unfold py_index.
  destruct (_ <? 0)%Z; [done|].
  destruct (xs !! _) as [y|] eqn:Hy; [|done].
  intros [= <-]. by eapply list_elem_of_lookup_2.
Qed.

(** ** Helper lemmas: chunking *)

Lemma cut_chunks_spec (fuel : nat) (L : Z) (cur : bytes)
    (processed : list bytes) :
  (0 < L)%Z → length cur < fuel → Forall (chunk_ok L) processed →
  ∃ cur' processed',
    cut_chunks fuel L cur processed = Some (cur', processed')
    ∧ Forall (chunk_ok L) processed'
    ∧ (Z.of_nat (length cur') < L)%Z
    ∧ length cur' ≤ length cur
    ∧ concat processed' ++ cur' = concat processed ++ cur.
Proof.
  intros HL. revert cur processed.
  induction fuel as [|fuel IH]; intros cur processed Hfuel Hok; [lia|].
  cbn [cut_chunks]. destruct (Z.leb_spec L (Z.of_nat (length cur))) as [Hge|Hlt].
  - rewrite py_slice_prefix, py_slice_suffix by lia.
    destruct (IH (drop (Z.to_nat L) cur)
                 (processed ++ [take (Z.to_nat L) cur]))
      as (cur' & processed' & Hrun & Hok' & Hshort & Hlen & Hcat).
    + rewrite length_drop. lia.
    + apply Forall_app. split; [done|]. constructor; [|done].
      unfold chunk_ok. rewrite length_take. lia.
    + exists cur', processed'. split; [done|]. split; [done|].
      split; [done|]. split.
      * rewrite length_drop in Hlen. lia.
      * rewrite Hcat, concat_app. cbn. rewrite app_nil_r, <- app_assoc.
        by rewrite take_drop.
  - exists cur, processed. by repeat split.
Qed.

(** For [sequence_length <= 0] the loop condition never fails. *)
Lemma cut_chunks_no_end (fuel : nat) (L : Z) (cur : bytes)
    (processed : list bytes) :
  (L <= 0)%Z → cut_chunks fuel L cur processed = None.
Proof.
  intros HL. revert cur processed.
  induction fuel as [|fuel IH]; intros cur processed; [done|].
  cbn [cut_chunks].
  destruct (Z.leb_spec L (Z.of_nat (length cur))); [apply IH|lia].
Qed.

Lemma consume_examples_spec (fuel : nat) (L : Z) (examples : list bytes)
    (cur : bytes) (processed : list bytes) :
  (0 < L)%Z → length cur + total_bytes examples < fuel →
  (Z.of_nat (length cur) < L)%Z → Forall (chunk_ok L) processed →
  ∃ cur' processed',
    consume_examples fuel L examples cur processed = Some (cur', processed')
    ∧ Forall (chunk_ok L) processed'
    ∧ (Z.of_nat (length cur') < L)%Z
    ∧ concat processed' ++ cur' = concat processed ++ cur ++ concat examples.
Proof.
  intros HL. revert cur processed.
  induction examples as [|text rest IH]; intros cur processed Hfuel Hcur Hok.
  - exists cur, processed. cbn. by rewrite app_nil_r.
  - unfold total_bytes in Hfuel. cbn in Hfuel. rewrite length_app in Hfuel.
    destruct (cut_chunks_spec fuel L (cur ++ text) processed)
      as (cur1 & processed1 & Hrun & Hok1 & Hshort & Hlen & Hcat);
      [done|rewrite length_app; lia|done|].
    rewrite length_app in Hlen.
    destruct (IH cur1 processed1)
      as (cur' & processed' & Hrun' & Hok' & Hshort' & Hcat');
      [unfold total_bytes; lia|done|done|].
    exists cur', processed'. cbn [consume_examples]. rewrite Hrun. cbn.
    split; [done|]. split; [done|]. split; [done|].
    rewrite Hcat'. cbn [concat]. rewrite app_assoc, Hcat.
    by rewrite <- !app_assoc.
Qed.

Lemma last_chunk_spec (L : Z) (cur : bytes) (processed : list bytes) :
  (Z.of_nat (length cur) < L)%Z → Forall (chunk_ok L) processed →
  Forall (chunk_ok L) (last_chunk L cur processed)
  ∧ ∃ pad : Z,
      (0 <= pad < L)%Z
      ∧ (cur = [] → pad = 0%Z)
      ∧ concat (last_chunk L cur processed)
        = concat processed ++ cur ++ zero_bytes pad.
Proof.
  intros Hshort Hok. destruct cur as [|b cur].
  - cbn. split; [done|]. exists 0%Z. cbn. rewrite app_nil_r.
    split; [lia|done].
  - unfold last_chunk. set (cur0 := b :: cur) in *.
    destruct (Z.ltb_spec (Z.of_nat (length cur0)) L) as [_|?]; [|lia].
    assert (Z.of_nat (length (cur0 ++ zero_bytes (L - Z.of_nat (length cur0))))
            = L) as Hlen.
    { unfold zero_bytes. rewrite length_app, length_replicate. lia. }
    rewrite py_slice_prefix by lia.
    rewrite take_ge by lia. split.
    + apply Forall_app. split; [done|]. by constructor.
    + exists (L - Z.of_nat (length cur0))%Z. split.
      * subst cur0. cbn [length] in *. lia.
      * split; [done|]. rewrite concat_app. cbn. by rewrite app_nil_r.
Qed.

Lemma process_split_spec (fuel : nat) (L : Z) (examples : list bytes) :
  (0 < L)%Z → total_bytes examples < fuel →
  ∃ chunks,
    process_split fuel L examples = Some chunks
    ∧ Forall (chunk_ok L) chunks
    ∧ ∃ pad : Z, (0 <= pad < L)%Z
        ∧ concat chunks = concat examples ++ zero_bytes pad.
Proof.
  intros HL Hfuel.
  destruct (consume_examples_spec fuel L examples [] [])
    as (cur & processed & Hrun & Hok & Hshort & Hcat);
    [done|cbn; lia|cbn; lia|done|].
  destruct (last_chunk_spec L cur processed Hshort Hok)
    as (Hok' & pad & Hpad & _ & Hcat').
  exists (last_chunk L cur processed). unfold process_split.
  rewrite Hrun. cbn. split; [done|]. split; [done|].
  exists pad. split; [done|]. rewrite Hcat', app_assoc, Hcat. done.
Qed.

(** More fuel does not change a result. *)
Lemma cut_chunks_fuel_mono (fuel fuel' : nat) (L : Z) (cur : bytes)
    (processed : list bytes) (r : bytes * list bytes) :
  cut_chunks fuel L cur processed = Some r → fuel ≤ fuel' →
  cut_chunks fuel' L cur processed = Some r.
Proof.
  revert fuel' cur processed.
  induction fuel as [|fuel IH]; intros fuel' cur processed Hrun Hle;
    [done|].
  destruct fuel' as [|fuel']; [lia|]. cbn [cut_chunks] in *.
  destruct (L <=? Z.of_nat (length cur))%Z; [|done].
  apply IH; [done|lia].
Qed.

Lemma consume_examples_fuel_mono (fuel fuel' : nat) (L : Z)
    (examples : list bytes) (cur : bytes) (processed : list bytes)
    (r : bytes * list bytes) :
  consume_examples fuel L examples cur processed = Some r → fuel ≤ fuel' →
  consume_examples fuel' L examples cur processed = Some r.
Proof.
  intros Hrun Hle. revert cur processed Hrun.
  induction examples as [|text rest IH]; intros cur processed Hrun; [done|].
  cbn [consume_examples] in *.
  destruct (cut_chunks fuel L (cur ++ text) processed) as [[cur1 p1]|]
    eqn:Hcut; [|done].
  rewrite (cut_chunks_fuel_mono _ _ _ _ _ _ Hcut Hle). cbn in *.
  by apply IH.
Qed.

Lemma process_split_fuel_mono (fuel fuel' : nat) (L : Z)
    (examples : list bytes) (chunks : list bytes) :
  process_split fuel L examples = Some chunks → fuel ≤ fuel' →
  process_split fuel' L examples = Some chunks.
Proof.
  unfold process_split. intros Hrun Hle.
  destruct (consume_examples fuel L examples [] []) as [[cur p]|] eqn:Hc;
    [|done].
  by rewrite (consume_examples_fuel_mono _ _ _ _ _ _ _ Hc Hle).
Qed.

(** With [sequence_length <= 0] a split is processed only if it has no
    example at all, and then nothing is stored. *)
Lemma process_split_nonpositive (fuel : nat) (L : Z) (examples : list bytes)
    (chunks : list bytes) :
  (L <= 0)%Z → process_split fuel L examples = Some chunks →
  examples = [] ∧ chunks = [].
Proof.
  intros HL. unfold process_split. destruct examples as [|text rest].
  - cbn. by intros [= <-].
  - cbn [consume_examples]. by rewrite cut_chunks_no_end.
Qed.

(** What holds of a processed split, whatever the fuel and the length. *)
Lemma process_split_result (fuel : nat) (L : Z) (examples : list bytes)
    (chunks : list bytes) :
  process_split fuel L examples = Some chunks →
  Forall (chunk_ok L) chunks
  ∧ ∃ pad : Z, (pad = 0 ∨ 0 < pad < L)%Z
      ∧ concat chunks = concat examples ++ zero_bytes pad.
Proof.
  intros Hrun. destruct (Z.lt_ge_cases 0 L) as [HL|HL].
  - apply (process_split_fuel_mono _ (fuel `max` S (total_bytes examples)))
      in Hrun; [|lia].
    destruct (process_split_spec (fuel `max` S (total_bytes examples)) L
                examples HL) as (chunks' & Hrun' & Hok & pad & Hpad & Hcat);
      [lia|].
    rewrite Hrun in Hrun'. injection Hrun' as <-.
    split; [done|]. exists pad. split; [lia|done].
  - destruct (process_split_nonpositive _ _ _ _ HL Hrun) as [-> ->].
    split; [done|]. exists 0%Z. by split; [left|].
Qed.

Lemma getitem_length (L : Z) (ds : ByteWikipediaDataset) (idx : Z)
    (item : list Z) :
  Forall (chunk_ok L) (data ds) → __getitem__ ds idx = Returned item →
  Z.of_nat (length item) = L.
Proof.
  intros Hok. unfold __getitem__.
  destruct (py_index (data ds) idx) as [seq|e] eqn:Hidx; [|done].
  cbn. intros [= <-]. rewrite length_map.
  apply py_index_elem in Hidx.
  by apply (proj1 (Forall_forall _ _) Hok).
Qed.

(** ** Helper lemmas: the object store *)

Lemma fresh_lookup (h : heap) : h !! fresh (dom h) = None.
Proof. apply not_elem_of_dom. apply is_fresh. Qed.

Lemma py_index_0 {A} (x : A) (xs : list A) :
  py_index (x :: xs) 0 = Returned x.
Proof. reflexivity. Qed.

Lemma get_data_of_copy (sp : string) (items : list bytes) (h : heap) :
  let d' := fresh (dom h) in
  let h1 := <[d' := ListObject items]> h in
  let subset := fresh (dom h1) in
  get_data subset (<[subset := DatasetObject d' sp]> h1)
  = Returned (d', sp, items).
Proof.
  intros d' h1 subset. unfold get_data.
  assert (subset ≠ d') as Hne.
  { intros Heq. pose proof (fresh_lookup h1) as Hf. fold subset in Hf.
    subst h1. by rewrite Heq, lookup_insert_eq in Hf. }
  rewrite lookup_insert_eq. rewrite lookup_insert_ne by done.
  subst h1. by rewrite lookup_insert_eq.
Qed.

Lemma get_subset_aligned (s e : Z) (ds d : loc) (sp : string)
    (first : bytes) (rest : list bytes) (h : heap) :
  let L := Z.of_nat (length first) in
  get_data ds h = Returned (d, sp, first :: rest) →
  L ≠ 0%Z → (s `mod` L = 0)%Z → (e `mod` L = 0)%Z → (s < e)%Z →
  get_subset s e ds h
  = Returned (subset_result (s `div` L) (e `div` L) sp (first :: rest) h).
Proof.
  intros L Hd HL Hs He Hlt. unfold get_subset, deepcopy. rewrite Hd.
  cbn [mbind outcome_bind]. rewrite py_index_0. cbn [mbind outcome_bind].
  fold L. unfold py_mod, py_floordiv.
  destruct (Z.eqb_spec L 0) as [|_]; [done|].
  cbn [mbind outcome_bind]. rewrite Hs, He.
  change (0 =? 0)%Z with true. cbn [mbind outcome_bind py_assert].
  destruct (Z.ltb_spec s e) as [_|]; [|lia].
  cbn [mbind outcome_bind py_assert alloc mret outcome_ret].
  by rewrite get_data_of_copy.
Qed.

Lemma get_subset_inv (s e : Z) (ds : loc) (h : heap) (r : loc * heap) :
  get_subset s e ds h = Returned r →
  ∃ d sp first rest,
    let L := Z.of_nat (length first) in
    get_data ds h = Returned (d, sp, first :: rest)
    ∧ L ≠ 0%Z ∧ (s `mod` L = 0)%Z ∧ (e `mod` L = 0)%Z ∧ (s < e)%Z
    ∧ r = subset_result (s `div` L) (e `div` L) sp (first :: rest) h.
Proof.
  intros Hrun.
  destruct (get_data ds h) as [[[d sp] items]|err] eqn:Hd;
    [|by unfold get_subset in Hrun; rewrite Hd in Hrun].
  destruct items as [|first rest];
    [by unfold get_subset in Hrun; rewrite Hd in Hrun|].
  exists d, sp, first, rest. intros L.
  assert (L ≠ 0%Z ∧ (s `mod` L = 0)%Z ∧ (e `mod` L = 0)%Z ∧ (s < e)%Z)
    as (HL & Hs & He & Hlt).
  { unfold get_subset in Hrun. rewrite Hd in Hrun.
    cbn [mbind outcome_bind] in Hrun. rewrite py_index_0 in Hrun.
    cbn [mbind outcome_bind] in Hrun.
    fold L in Hrun. unfold py_mod, py_floordiv in Hrun.
    destruct (Z.eqb_spec L 0) as [|HL]; [done|].
    cbn [mbind outcome_bind] in Hrun.
    destruct (Z.eqb_spec (s `mod` L) 0) as [Hs|]; [|done].
    cbn [mbind outcome_bind py_assert] in Hrun.
    destruct (Z.eqb_spec (e `mod` L) 0) as [He|]; [|done].
    cbn [mbind outcome_bind py_assert] in Hrun.
    destruct (Z.ltb_spec s e) as [Hlt|]; [|done]. done. }
  rewrite (get_subset_aligned s e ds d sp first rest h Hd HL Hs He Hlt)
    in Hrun.
  repeat (split; [done|]). by injection Hrun.
Qed.

Lemma subset_result_spec (a b : Z) (sp : string) (items : list bytes)
    (h : heap) :
  let subset := (subset_result a b sp items h).1 in
  let h' := (subset_result a b sp items h).2 in
  (subset ∉ dom h)
  ∧ (∀ l, l ∈ dom h → h' !! l = h !! l)
  ∧ ∃ sliced,
      (sliced ∉ dom h)
      ∧ h' !! subset = Some (DatasetObject sliced sp)
      ∧ h' !! sliced = Some (ListObject (py_slice items (Some a) (Some b))).
Proof.
  unfold subset_result. cbn [fst snd].
  set (d' := fresh (dom h)).
  set (h1 := <[d' := ListObject items]> h).
  set (subset := fresh (dom h1)).
  set (h2 := <[subset := DatasetObject d' sp]> h1).
  set (sliced := fresh (dom h2)).
  pose proof (is_fresh (dom h)) as Hd'. fold d' in Hd'.
  pose proof (is_fresh (dom h1)) as Hsub. fold subset in Hsub.
  pose proof (is_fresh (dom h2)) as Hsl. fold sliced in Hsl.
  subst h2 h1. rewrite !dom_insert_L in Hsl. rewrite dom_insert_L in Hsub.
  assert (subset ∉ dom h) as Hsub' by set_solver.
  assert (sliced ∉ dom h) as Hsl' by set_solver.
  assert (sliced ≠ subset) as Hne by set_solver.
  split; [done|]. split.
  - intros l Hl. rewrite !lookup_insert_ne by set_solver. done.
  - exists sliced. split; [done|]. split.
    + by rewrite lookup_insert_eq.
    + rewrite lookup_insert_ne by done. by rewrite lookup_insert_eq.
Qed.

Lemma get_data_frame (h h' : heap) (l d : loc) (sp : string)
    (items : list bytes) :
  (∀ l, l ∈ dom h → h' !! l = h !! l) →
  get_data l h = Returned (d, sp, items) →
  get_data l h' = Returned (d, sp, items).
Proof.
  intros Hframe. unfold get_data.
  destruct (h !! l) as [[|d0 sp0]|] eqn:Hl; try done.
  destruct (h !! d0) as [[items0|]|] eqn:Hd0; try done.
  intros [= -> -> ->].
  rewrite (Hframe l), Hl by (apply elem_of_dom; eauto).
  rewrite (Hframe d), Hd0 by (apply elem_of_dom; eauto). done.
Qed.

Lemma get_data_dom (h : heap) (l d : loc) (sp : string) (items : list bytes) :
  get_data l h = Returned (d, sp, items) →
  l ∈ dom h ∧ d ∈ dom h ∧ h !! d = Some (ListObject items).
Proof.
  unfold get_data.
  destruct (h !! l) as [[|d0 sp0]|] eqn:Hl; try done.
  destruct (h !! d0) as [[items0|]|] eqn:Hd0; try done.
  intros [= -> -> ->]. repeat split; try done; apply elem_of_dom; eauto.
Qed.

(** ** Claims *)

(** C9. In each of the three splits every chunk that
    [create_and_save_dataset] stores has exactly [sequence_length] bytes:
    laid end to end, the chunks are the bytes of the examples followed by
    zero bytes, fewer than [sequence_length] of them, that fill the last
    chunk.  Hence every item [__getitem__] returns has length
    [sequence_length].  For a positive [sequence_length] the call does
    return: fuel beyond the size of the largest split is enough. *)
Theorem create_and_save_dataset_fixed_length (fuel : nat) (L : Z)
    (save_path : string) (wiki_data : Wiki40B)
    (fs : gmap string WikipediaDatasets) :
  (∀ datasets fs',
     create_and_save_dataset fuel L save_path wiki_data fs
     = Some (datasets, fs') →
     sequence_length datasets = L
     ∧ fs' !! save_path = Some datasets
     ∧ ∀ ds examples,
         (ds, examples) ∈ [ (train datasets, wiki_train wiki_data);
                            (validation datasets, wiki_validation wiki_data);
                            (test datasets, wiki_test wiki_data) ] →
         Forall (λ chunk, Z.of_nat (length chunk) = L) (data ds)
         ∧ (∃ pad : Z, (pad = 0 ∨ 0 < pad < L)%Z
              ∧ concat (data ds) = concat examples ++ zero_bytes pad)
         ∧ ∀ idx item, __getitem__ ds idx = Returned item →
                       Z.of_nat (length item) = L)
  ∧ ((0 < L)%Z →
     total_bytes (wiki_train wiki_data) < fuel →
     total_bytes (wiki_validation wiki_data) < fuel →
     total_bytes (wiki_test wiki_data) < fuel →
     ∃ datasets fs',
       create_and_save_dataset fuel L save_path wiki_data fs
       = Some (datasets, fs')).
Proof.
  split.
  - intros datasets fs'. unfold create_and_save_dataset.
    destruct (process_split fuel L (wiki_train wiki_data)) as [tr|] eqn:Rtr;
      [|done].
    destruct (process_split fuel L (wiki_validation wiki_data)) as [va|]
      eqn:Rva; [|done].
    destruct (process_split fuel L (wiki_test wiki_data)) as [te|] eqn:Rte;
      [|done].
    cbn. intros [= <- <-]. cbn. split; [done|].
    split; [by rewrite lookup_insert_eq|].
    destruct (process_split_result _ _ _ _ Rtr) as [Otr Ptr].
    destruct (process_split_result _ _ _ _ Rva) as [Ova Pva].
    destruct (process_split_result _ _ _ _ Rte) as [Ote Pte].
    intros ds examples Hin.
    repeat (apply elem_of_cons in Hin as [[= -> ->]|Hin]);
      [..|by apply elem_of_nil in Hin];
      (split; [done|]; split; [done|]);
      intros idx item; by apply getitem_length.
  - intros HL Htr Hva Hte.
    destruct (process_split_spec fuel L _ HL Htr) as (tr & Rtr & _).
    destruct (process_split_spec fuel L _ HL Hva) as (va & Rva & _).
    destruct (process_split_spec fuel L _ HL Hte) as (te & Rte & _).
    unfold create_and_save_dataset. rewrite Rtr, Rva, Rte. cbn.
    by eexists _, _.
Qed.

(** C5, as the code has it.  For a dataset that is not empty and whose
    chunks all have a positive length [L]: [get_subset(0, 2*L, ds)] returns
    a dataset with the split name of [ds] whose chunks are the first two
    chunks of [ds] in order (its only chunk when it has one); and
    [get_subset] raises [AssertionError] with the diagnostic of the first
    constraint that fails, in the order: start not a multiple of [L], end
    not a multiple of [L], start not smaller than end. *)
Theorem get_subset_contract (h : heap) (ds d : loc) (sp : string)
    (items : list bytes) (L : Z) :
  get_data ds h = Returned (d, sp, items) →
  items ≠ [] →
  Forall (λ chunk, Z.of_nat (length chunk) = L) items →
  (0 < L)%Z →
  (∃ subset h',
     get_subset 0 (2 * L) ds h = Returned (subset, h')
     ∧ dataset_at h' subset = Some {| data := take 2 items; split := sp |})
  ∧ (∀ s e, (s `mod` L ≠ 0)%Z →
       get_subset s e ds h
       = Raised (AssertionError (StartTokenNotMultiple L)))
  ∧ (∀ s e, (s `mod` L = 0)%Z → (e `mod` L ≠ 0)%Z →
       get_subset s e ds h
       = Raised (AssertionError (EndTokenNotMultiple L)))
  ∧ (∀ s e, (s `mod` L = 0)%Z → (e `mod` L = 0)%Z → (e <= s)%Z →
       get_subset s e ds h
       = Raised (AssertionError StartNotSmallerThanEnd)).
Proof.
  intros Hd Hne Hall HL.
  destruct items as [|first rest]; [done|].
  assert (Z.of_nat (length first) = L) as Hfirst
    by (by apply Forall_cons in Hall as [? _]).
  split; [|split; [|split]].
  - assert ((0 `mod` L = 0)%Z ∧ ((2 * L) `mod` L = 0)%Z) as [H0 H2].
    { split; [apply Z.mod_0_l; lia|].
      apply Z.mod_mul; lia. }
    rewrite (get_subset_aligned 0 (2 * L) ds d sp first rest h Hd);
      rewrite ?Hfirst; try done; try lia.
    eexists _, _. split; [by rewrite <- surjective_pairing|].
    destruct (subset_result_spec (0 `div` L) ((2 * L) `div` L) sp
                (first :: rest) h) as (_ & _ & sliced & _ & Hsub & Hsl).
    cbn zeta in Hsub, Hsl. unfold dataset_at, get_data.
    rewrite Hsub, Hsl. rewrite Z.div_0_l by lia.
    rewrite Z.div_mul by lia.
    by rewrite py_slice_from_zero by lia.
  - intros s e Hs. unfold get_subset. rewrite Hd.
    cbn [mbind outcome_bind]. rewrite py_index_0.
    cbn [mbind outcome_bind]. rewrite Hfirst. unfold py_mod.
    destruct (Z.eqb_spec L 0); [lia|]. cbn [mbind outcome_bind].
    by destruct (Z.eqb_spec (s `mod` L) 0).
  - intros s e Hs He. unfold get_subset. rewrite Hd.
    cbn [mbind outcome_bind]. rewrite py_index_0.
    cbn [mbind outcome_bind]. rewrite Hfirst. unfold py_mod.
    destruct (Z.eqb_spec L 0); [lia|]. cbn [mbind outcome_bind].
    rewrite Hs. change (0 =? 0)%Z with true.
    cbn [mbind outcome_bind py_assert].
    by destruct (Z.eqb_spec (e `mod` L) 0).
  - intros s e Hs He Hle. unfold get_subset. rewrite Hd.
    cbn [mbind outcome_bind]. rewrite py_index_0.
    cbn [mbind outcome_bind]. rewrite Hfirst. unfold py_mod.
    destruct (Z.eqb_spec L 0); [lia|]. cbn [mbind outcome_bind].
    rewrite Hs, He. change (0 =? 0)%Z with true.
    cbn [mbind outcome_bind py_assert].
    by destruct (Z.ltb_spec s e); [lia|].
Qed.

(** Whatever the dataset, a request that breaks one of the three
    constraints does not return: on a dataset without chunks, or with empty
    chunks, the call raises before it reaches the assertions. *)
Lemma get_subset_rejects_always (h : heap) (ds d : loc) (sp : string)
    (items : list bytes) (L s e : Z) :
  get_data ds h = Returned (d, sp, items) →
  Forall (λ chunk, Z.of_nat (length chunk) = L) items →
  (s `mod` L ≠ 0 ∨ e `mod` L ≠ 0 ∨ e <= s)%Z →
  raises (get_subset s e ds h).
Proof.
  intros Hd Hall Hbad.
  destruct (get_subset s e ds h) as [r|err] eqn:Hrun; [|done].
  destruct (get_subset_inv s e ds h r Hrun)
    as (d' & sp' & first & rest & Hd' & _ & Hs & He & Hlt & _).
  rewrite Hd in Hd'. injection Hd' as _ _ ->.
  apply Forall_cons in Hall as [Hfirst _]. rewrite Hfirst in Hs, He. lia.
Qed.

(** C5, as stated, fails on a dataset without chunks: all of its chunks
    have length 4, vacuously, and [get_subset(0, 2*4, ds)] does not return
    a dataset but raises [IndexError] at [dataset.data[0]]. *)
Lemma get_subset_empty_dataset_raises :
  let h := store_of [] "train" in
  dataset_at h 1%positive = Some {| data := []; split := "train" |}
  ∧ Forall (λ chunk : bytes, Z.of_nat (length chunk) = 4%Z) []
  ∧ get_subset 0 (2 * 4) 1%positive h = Raised IndexError
  ∧ ¬ ∃ r, get_subset 0 (2 * 4) 1%positive h = Returned r.
Proof.
  cbn zeta. split; [by vm_compute|]. split; [constructor|].
  assert (get_subset 0 (2 * 4) 1%positive (store_of [] "train")
          = Raised IndexError) as Hrun by (by vm_compute).
  split; [done|]. intros [r Hr]. by rewrite Hrun in Hr.
Qed.

(** The same call on a dataset of empty chunks ([L = 0]) divides by zero. *)
Lemma get_subset_empty_chunks_raises :
  get_subset 0 (2 * 0) 1%positive (store_of [[]; []] "train")
  = Raised ZeroDivisionError.
Proof. by vm_compute. Qed.

(** C10. When [get_subset] returns, the returned dataset is an object that
    was not in the store before, its [data] is a list object that was not
    in the store before either and holds the selected chunks, and every
    object that was in the store is unchanged: the argument, its list, the
    length of that list and each of its chunks. *)
Theorem get_subset_leaves_input_unchanged (s e : Z) (ds : loc) (h : heap)
    (subset : loc) (h' : heap) :
  get_subset s e ds h = Returned (subset, h') →
  (subset ∉ dom h)
  ∧ subset ≠ ds
  ∧ (∀ l, l ∈ dom h → h' !! l = h !! l)
  ∧ dataset_at h' ds = dataset_at h ds
  ∧ ∃ d sp items sliced first,
      get_data ds h = Returned (d, sp, items)
      ∧ get_data ds h' = Returned (d, sp, items)
      ∧ h' !! d = Some (ListObject items)
      ∧ items !! 0 = Some first
      ∧ (sliced ∉ dom h) ∧ sliced ≠ d
      ∧ get_data subset h'
        = Returned (sliced, sp,
                    py_slice items
                      (Some (s `div` Z.of_nat (length first))%Z)
                      (Some (e `div` Z.of_nat (length first))%Z)).
Proof.
  intros Hrun.
  destruct (get_subset_inv s e ds h _ Hrun)
    as (d & sp & first & rest & Hd & _ & _ & _ & _ & Hr).
  set (L := Z.of_nat (length first)) in *.
  destruct (subset_result_spec (s `div` L) (e `div` L) sp (first :: rest) h)
    as (Hnew & Hframe & sliced & Hsl & Hsub & Hlist).
  rewrite <- Hr in Hnew, Hframe, Hsub, Hlist. cbn [fst snd] in *.
  destruct (get_data_dom _ _ _ _ _ Hd) as (Hds & Hdd & Hditems).
  pose proof (get_data_frame h h' ds d sp _ Hframe Hd) as Hd'.
  split; [done|]. split; [by intros ->|]. split; [done|].
  split; [unfold dataset_at; by rewrite Hd, Hd'|].
  exists d, sp, (first :: rest), sliced, first.
  split; [done|]. split; [done|].
  split; [by rewrite (Hframe d Hdd)|]. split; [done|].
  split; [done|]. split; [by intros ->|].
  unfold get_data. by rewrite Hsub, Hlist.
Qed.

(** *** Examples *)

Example process_split_pads_last_chunk :
  process_split 6 4 (wiki_train example_wiki)
  = Some [ [Byte.x61; Byte.x62; Byte.x63; Byte.x64];
           [Byte.x65; Byte.x00; Byte.x00; Byte.x00] ].
Proof. reflexivity. Qed.

Example process_split_exact_fit :
  process_split 6 5 (wiki_train example_wiki)
  = Some [ [Byte.x61; Byte.x62; Byte.x63; Byte.x64; Byte.x65] ].
Proof. reflexivity. Qed.

Example getitem_negative_index :
  __getitem__ {| data := example_chunks; split := "train" |} (-1)
  = Returned [101; 102]%Z
  ∧ __getitem__ {| data := example_chunks; split := "train" |} 3
    = Raised IndexError.
Proof. split; reflexivity. Qed.

(** A start below zero passes the three assertions; the slice then counts
    the start from the end of the list. *)
Example get_subset_negative_start :
  let h := store_of example_chunks "train" in
  ∃ subset h',
    get_subset (-2) 0 1%positive h = Returned (subset, h')
    ∧ dataset_at h' subset = Some {| data := []; split := "train" |}.
Proof. eexists _, _. split; by vm_compute. Qed.

Lemma create_and_save_dataset_fixed_length_witness :
  ∃ datasets fs',
    create_and_save_dataset 6 4 "wiki.pt" example_wiki ∅
    = Some (datasets, fs')
    ∧ sequence_length datasets = 4%Z
    ∧ Forall (λ chunk, Z.of_nat (length chunk) = 4%Z) (data (train datasets))
    ∧ ∀ idx item, __getitem__ (train datasets) idx = Returned item →
                  Z.of_nat (length item) = 4%Z.
Proof.
  destruct (create_and_save_dataset_fixed_length 6 4 "wiki.pt"
              example_wiki ∅) as [Hinv Hruns].
  destruct Hruns as (datasets & fs' & Hrun); [lia|vm_compute; lia..|].
  exists datasets, fs'. split; [done|].
  destruct (Hinv datasets fs' Hrun) as (Hlen & _ & Hsplits).
  split; [done|].
  destruct (Hsplits (train datasets) (wiki_train example_wiki))
    as (Hall & _ & Hitems); [apply list_elem_of_here|].
  by split.
Defined.

Lemma get_subset_contract_witness :
  let h := store_of example_chunks "train" in
  (∃ subset h',
     get_subset 0 (2 * 2) 1%positive h = Returned (subset, h')
     ∧ dataset_at h' subset
       = Some {| data := take 2 example_chunks; split := "train" |})
  ∧ (∀ s e, (s `mod` 2 ≠ 0)%Z →
       get_subset s e 1%positive h
       = Raised (AssertionError (StartTokenNotMultiple 2)))
  ∧ (∀ s e, (s `mod` 2 = 0)%Z → (e `mod` 2 ≠ 0)%Z →
       get_subset s e 1%positive h
       = Raised (AssertionError (EndTokenNotMultiple 2)))
  ∧ (∀ s e, (s `mod` 2 = 0)%Z → (e `mod` 2 = 0)%Z → (e <= s)%Z →
       get_subset s e 1%positive h
       = Raised (AssertionError StartNotSmallerThanEnd)).
Proof.
  apply (get_subset_contract (store_of example_chunks "train") 1 2 "train"
           example_chunks 2).
  - reflexivity.
  - discriminate.
  - repeat constructor.
  - lia.
Defined.

Lemma get_subset_leaves_input_unchanged_witness :
  let h := store_of example_chunks "train" in
  let r := subset_result 1 3 "train" example_chunks h in
  (r.1 ∉ dom h)
  ∧ r.1 ≠ 1%positive
  ∧ (∀ l, l ∈ dom h → r.2 !! l = h !! l)
  ∧ dataset_at r.2 1%positive = dataset_at h 1%positive
  ∧ ∃ d sp items sliced first,
      get_data 1%positive h = Returned (d, sp, items)
      ∧ get_data 1%positive r.2 = Returned (d, sp, items)
      ∧ r.2 !! d = Some (ListObject items)
      ∧ items !! 0 = Some first
      ∧ (sliced ∉ dom h) ∧ sliced ≠ d
      ∧ get_data r.1 r.2
        = Returned (sliced, sp,
                    py_slice items
                      (Some (2 `div` Z.of_nat (length first))%Z)
                      (Some (6 `div` Z.of_nat (length first))%Z)).
Proof.
  apply (get_subset_leaves_input_unchanged 2 6 1
           (store_of example_chunks "train")).
  by vm_compute.
Defined.

(* --------------------------------------------------------------------- *)
(** ** Further code: [load_dataset] *)

(** [load_dataset].  [torch_load] is what [torch.load], called with its
    defaults as the source calls it, makes of a file in which [torch.save]
    stored the given object: the object again, or an exception (a torch
    whose default is [weights_only=True] refuses to unpickle a
    [WikipediaDatasets]).  The corpus and the fuel are used only when the
    datasets are built; the result is [None] when the fuel runs out. *)
Definition load_dataset
    (torch_load : WikipediaDatasets → outcome WikipediaDatasets)
    (fuel : nat) (load_path : string)
    (required_seq_length : Z) (wiki_data : Wiki40B)
    (fs : gmap string WikipediaDatasets)
    : option (outcome (WikipediaDatasets * gmap string WikipediaDatasets)) :=
  match fs !! load_path with
  | None =>
      Returned <$>
        create_and_save_dataset fuel required_seq_length load_path wiki_data
          fs
  | Some stored =>
      match torch_load stored with
      | Raised e => Some (Raised e)
      | Returned datasets =>
          if negb (sequence_length datasets =? required_seq_length)%Z then
            Returned <$>
              create_and_save_dataset fuel required_seq_length load_path
                wiki_data fs
          else Some (Returned (datasets, fs))
      end
  end.

(** The integer a byte is read as, and the byte an integer stands for. *)
Definition byte_value (b : Byte.byte) : Z := Z.of_N (Byte.to_N b).

Definition byte_of_value (x : Z) : option Byte.byte :=
  if (x <? 0)%Z then None else Byte.of_N (Z.to_N x).

(** ** Further properties *)

Lemma create_and_save_dataset_inv (fuel : nat) (L : Z) (save_path : string)
    (wiki_data : Wiki40B) (fs fs' : gmap string WikipediaDatasets)
    (datasets : WikipediaDatasets) :
  create_and_save_dataset fuel L save_path wiki_data fs
  = Some (datasets, fs') →
  process_split fuel L (wiki_train wiki_data) = Some (data (train datasets))
  ∧ process_split fuel L (wiki_validation wiki_data)
    = Some (data (validation datasets))
  ∧ process_split fuel L (wiki_test wiki_data) = Some (data (test datasets))
  ∧ split (train datasets) = "train"%string
  ∧ split (validation datasets) = "validation"%string
  ∧ split (test datasets) = "test"%string
  ∧ sequence_length datasets = L
  ∧ fs' = <[save_path := datasets]> fs.
Proof.
  unfold create_and_save_dataset.
  destruct (process_split fuel L (wiki_train wiki_data)) as [tr|]; [|done].
  destruct (process_split fuel L (wiki_validation wiki_data)) as [va|];
    [|done].
  destruct (process_split fuel L (wiki_test wiki_data)) as [te|]; [|done].
  cbn. by intros [= <- <-].
Qed.

Lemma concat_length_fixed (L : Z) (chunks : list bytes) :
  Forall (chunk_ok L) chunks →
  Z.of_nat (length (concat chunks)) = (L * Z.of_nat (length chunks))%Z.
Proof.
  induction 1 as [|c chunks Hc _ IH]; cbn [concat length]; [lia|].
  rewrite length_app. unfold chunk_ok in Hc. lia.
Qed.

Lemma concat_inj_fixed (L : Z) (chunks1 chunks2 : list bytes) :
  (0 < L)%Z → Forall (chunk_ok L) chunks1 → Forall (chunk_ok L) chunks2 →
  concat chunks1 = concat chunks2 → chunks1 = chunks2.
Proof.
  intros HL H1. revert chunks2.
  induction H1 as [|c1 chunks1 Hc1 _ IH]; intros chunks2 H2 Heq.
  - destruct H2 as [|c2 chunks2 Hc2 _]; [done|].
    apply (f_equal length) in Heq. cbn in Heq. rewrite length_app in Heq.
    unfold chunk_ok in Hc2. lia.
  - destruct H2 as [|c2 chunks2 Hc2 H2].
    + apply (f_equal length) in Heq. cbn in Heq. rewrite length_app in Heq.
      unfold chunk_ok in Hc1. lia.
    + cbn in Heq. apply app_inj_1 in Heq as [-> Heq];
        [|unfold chunk_ok in *; lia].
      f_equal. by apply IH.
Qed.

Lemma zero_bytes_length (pad : Z) :
  (0 <= pad)%Z → Z.of_nat (length (zero_bytes pad)) = pad.
Proof. intros. unfold zero_bytes. rewrite length_replicate. lia. Qed.

(** The number of chunks of a processed split. *)
Lemma process_split_count (fuel : nat) (L : Z) (examples chunks : list bytes) :
  (0 < L)%Z → process_split fuel L examples = Some chunks →
  Z.of_nat (length chunks)
  = ((Z.of_nat (total_bytes examples) + L - 1) `div` L)%Z.
Proof.
  intros HL Hrun.
  destruct (process_split_result _ _ _ _ Hrun) as (Hok & pad & Hpad & Hcat).
  pose proof (concat_length_fixed L chunks Hok) as Hlen.
  rewrite Hcat, length_app, Nat2Z.inj_add, zero_bytes_length in Hlen
    by lia.
  fold (total_bytes examples) in Hlen.
  apply (Z.div_unique _ _ _ (L - 1 - pad)); lia.
Qed.

(** The chunks depend on the bytes of the examples laid end to end only. *)
Lemma process_split_concat_only (fuel1 fuel2 : nat) (L : Z)
    (examples1 examples2 chunks1 chunks2 : list bytes) :
  concat examples1 = concat examples2 →
  process_split fuel1 L examples1 = Some chunks1 →
  process_split fuel2 L examples2 = Some chunks2 →
  chunks1 = chunks2.
Proof.
  intros Hsame Hrun1 Hrun2.
  destruct (Z.lt_ge_cases 0 L) as [HL|HL].
  - destruct (process_split_result _ _ _ _ Hrun1)
      as (Hok1 & pad1 & Hpad1 & Hcat1).
    destruct (process_split_result _ _ _ _ Hrun2)
      as (Hok2 & pad2 & Hpad2 & Hcat2).
    pose proof (concat_length_fixed L _ Hok1) as Hlen1.
    pose proof (concat_length_fixed L _ Hok2) as Hlen2.
    rewrite Hcat1, length_app, Nat2Z.inj_add, zero_bytes_length in Hlen1
      by lia.
    rewrite Hcat2, length_app, Nat2Z.inj_add, zero_bytes_length in Hlen2
      by lia.
    rewrite Hsame in Hlen1.
    assert (pad1 = pad2) as ->.
    { set (k := (Z.of_nat (length chunks1) - Z.of_nat (length chunks2))%Z).
      assert (pad1 - pad2 = L * k)%Z as Hdiff by lia.
      assert (- L < pad1 - pad2 < L)%Z as Hbound by lia.
      assert (k = 0)%Z as Hk by nia. lia. }
    apply (concat_inj_fixed L); try done. by rewrite Hcat1, Hcat2, Hsame.
  - destruct (process_split_nonpositive _ _ _ _ HL Hrun1) as [_ ->].
    by destruct (process_split_nonpositive _ _ _ _ HL Hrun2) as [_ ->].
Qed.

Lemma load_dataset_cached torch_load (fuel : nat) (load_path : string)
    (L : Z) (wiki_data : Wiki40B) (fs : gmap string WikipediaDatasets)
    (stored datasets : WikipediaDatasets) :
  fs !! load_path = Some stored → torch_load stored = Returned datasets →
  sequence_length datasets = L →
  load_dataset torch_load fuel load_path L wiki_data fs
  = Some (Returned (datasets, fs)).
Proof.
  intros Hfile Hload Hlen. unfold load_dataset. rewrite Hfile, Hload, Hlen.
  by rewrite Z.eqb_refl.
Qed.

Lemma load_dataset_refused torch_load (fuel : nat) (load_path : string)
    (L : Z) (wiki_data : Wiki40B) (fs : gmap string WikipediaDatasets)
    (stored : WikipediaDatasets) (e : exn) :
  fs !! load_path = Some stored → torch_load stored = Raised e →
  load_dataset torch_load fuel load_path L wiki_data fs = Some (Raised e).
Proof. intros Hfile Hload. unfold load_dataset. by rewrite Hfile, Hload. Qed.

Lemma load_dataset_other_length torch_load (fuel : nat)
    (load_path : string) (L : Z) (wiki_data : Wiki40B)
    (fs : gmap string WikipediaDatasets)
    (stored datasets : WikipediaDatasets) :
  fs !! load_path = Some stored → torch_load stored = Returned datasets →
  sequence_length datasets ≠ L →
  load_dataset torch_load fuel load_path L wiki_data fs
  = Returned <$> create_and_save_dataset fuel L load_path wiki_data fs.
Proof.
  intros Hfile Hload Hlen. unfold load_dataset. rewrite Hfile, Hload.
  by destruct (Z.eqb_spec (sequence_length datasets) L).
Qed.

(** The two ways [load_dataset] returns: the stored object as [torch.load]
    gave it, with nothing written, or what [create_and_save_dataset]
    built. *)
Lemma load_dataset_inv torch_load (fuel : nat) (load_path : string) (L : Z)
    (wiki_data : Wiki40B) (fs fs' : gmap string WikipediaDatasets)
    (datasets : WikipediaDatasets) :
  load_dataset torch_load fuel load_path L wiki_data fs
  = Some (Returned (datasets, fs')) →
  (∃ stored, fs !! load_path = Some stored
             ∧ torch_load stored = Returned datasets
             ∧ sequence_length datasets = L ∧ fs' = fs)
  ∨ create_and_save_dataset fuel L load_path wiki_data fs
    = Some (datasets, fs').
Proof.
  unfold load_dataset.
  destruct (fs !! load_path) as [stored|] eqn:Hfile.
  - destruct (torch_load stored) as [loaded|e] eqn:Hload; [|done].
    destruct (Z.eqb_spec (sequence_length loaded) L) as [Heq|Hne]; cbn.
    + intros [= <- <-]. left. by exists stored.
    + destruct (create_and_save_dataset fuel L load_path wiki_data fs)
        as [[d f]|]; [|done].
      intros [= <- <-]. by right.
  - destruct (create_and_save_dataset fuel L load_path wiki_data fs)
      as [[d f]|]; [|done].
    intros [= <- <-]. by right.
Qed.

Lemma byte_of_value_byte_value (b : Byte.byte) :
  byte_of_value (byte_value b) = Some b.
Proof.
  unfold byte_of_value, byte_value.
  destruct (Z.ltb_spec (Z.of_N (Byte.to_N b)) 0); [lia|].
  rewrite N2Z.id. apply Byte.of_to_N.
Qed.

Lemma byte_value_range (b : Byte.byte) : (0 <= byte_value b < 256)%Z.
Proof.
  unfold byte_value. pose proof (Byte.to_N_bounded b). lia.
Qed.

(** X12. [__getitem__] accepts exactly the indices from [-len] to
    [len - 1]: a negative index counts from the end, and any other index
    raises [IndexError]. *)
Theorem getitem_index_range (ds : ByteWikipediaDataset) (idx : Z) :
  let n := __len__ ds in
  ((- n <= idx < n)%Z →
     ∃ chunk,
       data ds !! Z.to_nat (if (idx <? 0)%Z then idx + n else idx)%Z
       = Some chunk
       ∧ __getitem__ ds idx = Returned (byte_value <$> chunk))
  ∧ (¬ (- n <= idx < n)%Z → __getitem__ ds idx = Raised IndexError).
Proof.
  intros n. unfold __getitem__, py_index. fold (__len__ ds). fold n.
  set (j := (if (idx <? 0)%Z then idx + n else idx)%Z).
  assert (j = if (idx <? 0)%Z then idx + n else idx)%Z as Hj by done.
  clearbody j. split.
  - intros Hin. destruct (Z.ltb_spec j 0) as [Hneg|Hpos].
    { destruct (Z.ltb_spec idx 0); lia. }
    destruct (lookup_lt_is_Some_2 (data ds) (Z.to_nat j)) as [chunk Hc].
    { unfold n, __len__ in *. destruct (Z.ltb_spec idx 0); lia. }
    exists chunk. by rewrite Hc.
  - intros Hout. destruct (Z.ltb_spec j 0) as [Hneg|Hpos]; [done|].
    rewrite (lookup_ge_None_2 (data ds) (Z.to_nat j)); [done|].
    unfold n, __len__ in *. destruct (Z.ltb_spec idx 0); lia.
Qed.

(** X13. An item [__getitem__] returns is one of the stored chunks read
    byte by byte: its entries lie between 0 and 255 and turn back into
    the bytes of that chunk. *)
Theorem getitem_decodes_to_chunk (ds : ByteWikipediaDataset) (idx : Z)
    (item : list Z) :
  __getitem__ ds idx = Returned item →
  Forall (λ x, 0 <= x < 256)%Z item
  ∧ ∃ chunk, chunk ∈ data ds
      ∧ length item = length chunk
      ∧ byte_of_value <$> item = Some <$> chunk.
Proof.
  unfold __getitem__.
  destruct (py_index (data ds) idx) as [chunk|e] eqn:Hidx; [|done].
  cbn. intros [= <-]. apply py_index_elem in Hidx. split.
  - apply Forall_forall. intros x Hx. apply list_elem_of_In in Hx.
    apply in_map_iff in Hx as (b & <- & _). apply byte_value_range.
  - exists chunk. split; [done|]. split; [by rewrite length_map|].
    clear. induction chunk as [|b chunk IH]; [done|].
    cbn. fold (byte_value b). rewrite byte_of_value_byte_value.
    f_equal. exact IH.
Qed.

(** X14. With a positive [sequence_length], each split gets as many chunks
    as its bytes need, the total rounded up: [ceil(bytes / length)]. *)
Theorem create_and_save_dataset_chunk_count (fuel : nat) (L : Z)
    (save_path : string) (wiki_data : Wiki40B)
    (fs fs' : gmap string WikipediaDatasets) (datasets : WikipediaDatasets) :
  (0 < L)%Z →
  create_and_save_dataset fuel L save_path wiki_data fs
  = Some (datasets, fs') →
  ∀ ds examples,
    (ds, examples) ∈ [ (train datasets, wiki_train wiki_data);
                       (validation datasets, wiki_validation wiki_data);
                       (test datasets, wiki_test wiki_data) ] →
    __len__ ds = ((Z.of_nat (total_bytes examples) + L - 1) `div` L)%Z.
Proof.
  intros HL Hrun ds examples Hin.
  apply create_and_save_dataset_inv in Hrun as (Htr & Hva & Hte & _).
  unfold __len__.
  repeat (apply elem_of_cons in Hin as [[= -> ->]|Hin]);
    [..|by apply elem_of_nil in Hin];
    by eapply process_split_count.
Qed.

(** X15. The chunks do not depend on where one example ends and the next
    begins: two corpora whose splits hold the same bytes, cut into
    examples differently, give the same datasets. *)
Theorem create_and_save_dataset_ignores_example_boundaries
    (fuel1 fuel2 : nat) (L : Z) (save_path : string)
    (wiki1 wiki2 : Wiki40B) (fs fs1 fs2 : gmap string WikipediaDatasets)
    (datasets1 datasets2 : WikipediaDatasets) :
  concat (wiki_train wiki1) = concat (wiki_train wiki2) →
  concat (wiki_validation wiki1) = concat (wiki_validation wiki2) →
  concat (wiki_test wiki1) = concat (wiki_test wiki2) →
  create_and_save_dataset fuel1 L save_path wiki1 fs
  = Some (datasets1, fs1) →
  create_and_save_dataset fuel2 L save_path wiki2 fs
  = Some (datasets2, fs2) →
  datasets1 = datasets2 ∧ fs1 = fs2.
Proof.
  intros Htr Hva Hte Hrun1 Hrun2.
  apply create_and_save_dataset_inv in Hrun1
    as (Htr1 & Hva1 & Hte1 & Hs1 & Hs2 & Hs3 & HL1 & ->).
  apply create_and_save_dataset_inv in Hrun2
    as (Htr2 & Hva2 & Hte2 & Hs1' & Hs2' & Hs3' & HL2 & ->).
  pose proof (process_split_concat_only _ _ _ _ _ _ _ Htr Htr1 Htr2).
  pose proof (process_split_concat_only _ _ _ _ _ _ _ Hva Hva1 Hva2).
  pose proof (process_split_concat_only _ _ _ _ _ _ _ Hte Hte1 Hte2).
  assert (datasets1 = datasets2) as ->; [|done].
  destruct datasets1 as [[] [] [] ?], datasets2 as [[] [] [] ?].
  cbn in *. congruence.
Qed.

(** X16. With [sequence_length <= 0] the call returns only for a corpus
    without any example, and then with three empty datasets; if some split
    has an example the chunking loop does not end, whatever the fuel. *)
Theorem create_and_save_dataset_nonpositive_length (fuel : nat) (L : Z)
    (save_path : string) (wiki_data : Wiki40B)
    (fs : gmap string WikipediaDatasets) :
  (L <= 0)%Z →
  (wiki_train wiki_data = [] ∧ wiki_validation wiki_data = []
   ∧ wiki_test wiki_data = [] →
   ∃ datasets fs',
     create_and_save_dataset fuel L save_path wiki_data fs
     = Some (datasets, fs')
     ∧ data (train datasets) = [] ∧ data (validation datasets) = []
     ∧ data (test datasets) = [])
  ∧ (¬ (wiki_train wiki_data = [] ∧ wiki_validation wiki_data = []
        ∧ wiki_test wiki_data = []) →
     create_and_save_dataset fuel L save_path wiki_data fs = None).
Proof.
  intros HL. split.
  - intros (Htr & Hva & Hte). unfold create_and_save_dataset.
    rewrite Htr, Hva, Hte. cbn. by eexists _, _.
  - intros Hsome.
    destruct (create_and_save_dataset fuel L save_path wiki_data fs)
      as [[datasets fs']|] eqn:Hrun; [|done].
    apply create_and_save_dataset_inv in Hrun as (Htr & Hva & Hte & _).
    apply (process_split_nonpositive _ _ _ _ HL) in Htr as [Htr _].
    apply (process_split_nonpositive _ _ _ _ HL) in Hva as [Hva _].
    apply (process_split_nonpositive _ _ _ _ HL) in Hte as [Hte _].
    by destruct Hsome.
Qed.

(** X17. Whatever [load_dataset] returns has the required sequence length:
    it is the stored object as [torch.load] gave it, of that length and with
    nothing written, or it is what [create_and_save_dataset] built for that
    length.  A stored dataset of another length is never returned. *)
Theorem load_dataset_returns_required_length
    (torch_load : WikipediaDatasets → outcome WikipediaDatasets)
    (fuel : nat) (load_path : string) (L : Z) (wiki_data : Wiki40B)
    (fs fs' : gmap string WikipediaDatasets) (datasets : WikipediaDatasets) :
  load_dataset torch_load fuel load_path L wiki_data fs
  = Some (Returned (datasets, fs')) →
  sequence_length datasets = L
  ∧ ((∃ stored, fs !! load_path = Some stored
                ∧ torch_load stored = Returned datasets ∧ fs' = fs)
     ∨ create_and_save_dataset fuel L load_path wiki_data fs
       = Some (datasets, fs')).
Proof.
  intros Hrun.
  destruct (load_dataset_inv _ _ _ _ _ _ _ _ Hrun)
    as [(stored & Hfile & Hload & Hlen & ->)|Hcreate].
  - split; [done|]. left. by exists stored.
  - split; [|by right].
    by apply create_and_save_dataset_inv in Hcreate
      as (_ & _ & _ & _ & _ & _ & ? & _).
Qed.

(** X18. After [create_and_save_dataset], a [load_dataset] with the same
    path and length goes by what [torch.load] makes of the saved file.
    Where it gives the saved object back, [load_dataset] returns the same
    datasets and writes nothing, without building anything (no fuel is
    needed and the corpus is not read); where it raises, [load_dataset]
    raises the same exception. *)
Theorem load_dataset_after_create
    (torch_load : WikipediaDatasets → outcome WikipediaDatasets)
    (fuel : nat) (L : Z) (path : string)
    (wiki_data : Wiki40B) (fs fs1 : gmap string WikipediaDatasets)
    (datasets : WikipediaDatasets) :
  create_and_save_dataset fuel L path wiki_data fs = Some (datasets, fs1) →
  (torch_load datasets = Returned datasets →
   ∀ fuel' wiki_data',
     load_dataset torch_load fuel' path L wiki_data' fs1
     = Some (Returned (datasets, fs1)))
  ∧ (∀ e, torch_load datasets = Raised e →
     ∀ fuel' wiki_data',
       load_dataset torch_load fuel' path L wiki_data' fs1
       = Some (Raised e)).
Proof.
  intros Hrun.
  apply create_and_save_dataset_inv in Hrun
    as (_ & _ & _ & _ & _ & _ & Hlen & ->).
  split.
  - intros Hload fuel' wiki_data'.
    apply (load_dataset_cached _ _ _ _ _ _ datasets); [|done..].
    by rewrite lookup_insert_eq.
  - intros e Hload fuel' wiki_data'.
    apply (load_dataset_refused _ _ _ _ _ _ datasets); [|done].
    by rewrite lookup_insert_eq.
Qed.

(** X19. When [load_dataset] has returned datasets that [torch.load] gives
    back as they were saved, a second [load_dataset] with the same length
    returns the datasets of the first and writes nothing; with another
    length it does what [create_and_save_dataset] does with that length, so
    the stored datasets are not returned. *)
Theorem load_dataset_again
    (torch_load : WikipediaDatasets → outcome WikipediaDatasets)
    (fuel : nat) (L : Z) (path : string)
    (wiki_data : Wiki40B) (fs fs1 : gmap string WikipediaDatasets)
    (datasets : WikipediaDatasets) :
  load_dataset torch_load fuel path L wiki_data fs
  = Some (Returned (datasets, fs1)) →
  torch_load datasets = Returned datasets →
  (∀ fuel' wiki_data',
     load_dataset torch_load fuel' path L wiki_data' fs1
     = Some (Returned (datasets, fs1)))
  ∧ ∀ fuel' wiki_data' L', L' ≠ L →
      load_dataset torch_load fuel' path L' wiki_data' fs1
      = Returned <$> create_and_save_dataset fuel' L' path wiki_data' fs1.
Proof.
  intros Hrun Hsaved.
  assert (∃ stored, fs1 !! path = Some stored
                    ∧ torch_load stored = Returned datasets
                    ∧ sequence_length datasets = L)
    as (stored & Hfile & Hload & Hlen).
  { destruct (load_dataset_inv _ _ _ _ _ _ _ _ Hrun)
      as [(stored & Hfile & Hload & Hlen & ->)|Hcreate].
    - by exists stored.
    - apply create_and_save_dataset_inv in Hcreate
        as (_ & _ & _ & _ & _ & _ & Hlen & ->).
      exists datasets. by rewrite lookup_insert_eq. }
  split.
  - intros fuel' wiki_data'. by apply (load_dataset_cached _ _ _ _ _ _ stored).
  - intros fuel' wiki_data' L' Hne.
    apply (load_dataset_other_length _ _ _ _ _ _ stored datasets);
      [done..|congruence].
Qed.

(** *** Further properties of [get_subset] *)

Lemma py_slice_nonneg {A} (xs : list A) (a b : Z) :
  (0 <= a <= b)%Z →
  py_slice xs (Some a) (Some b)
  = take (Z.to_nat (b - a)) (drop (Z.to_nat a) xs).
Proof.
  intros Hab. unfold py_slice, clamp_bound.
  destruct (Z.ltb_spec a 0); [lia|]. destruct (Z.ltb_spec b 0); [lia|].
  set (n := Z.of_nat (length xs)).
  destruct (Z.le_gt_cases n a) as [Hna|Hna].
  - rewrite !Z.min_r by lia. rewrite !drop_ge by lia. by rewrite !take_nil.
  - rewrite (Z.min_l a) by lia.
    destruct (Z.le_gt_cases b n) as [Hbn|Hbn].
    + by rewrite Z.min_l by lia.
    + rewrite Z.min_r by lia.
      rewrite !take_ge; [done|rewrite length_drop; lia..].
Qed.

(** Any slice is a run of consecutive elements of the list. *)
Lemma py_slice_contiguous {A} (xs : list A) (lo hi : option Z) :
  ∃ pre post, xs = pre ++ py_slice xs lo hi ++ post.
Proof.
  assert (∀ a k, xs = take a xs ++ take k (drop a xs) ++ drop k (drop a xs))
    as Hrun by (intros a k; by rewrite !take_drop).
  unfold py_slice. eexists _, _. apply Hrun.
Qed.

Lemma get_subset_returns_slice (s e : Z) (ds d : loc) (sp : string)
    (first : bytes) (rest : list bytes) (h : heap) :
  let L := Z.of_nat (length first) in
  get_data ds h = Returned (d, sp, first :: rest) →
  L ≠ 0%Z → (s `mod` L = 0)%Z → (e `mod` L = 0)%Z → (s < e)%Z →
  ∃ subset sliced h',
    get_subset s e ds h = Returned (subset, h')
    ∧ get_data subset h'
      = Returned (sliced, sp,
                  py_slice (first :: rest) (Some (s `div` L)%Z)
                    (Some (e `div` L)%Z)).
Proof.
  intros L Hd HL Hs He Hlt.
  rewrite (get_subset_aligned s e ds d sp first rest h Hd HL Hs He Hlt).
  destruct (subset_result_spec (s `div` L) (e `div` L) sp (first :: rest) h)
    as (_ & _ & sliced & _ & Hsub & Hsl).
  cbn zeta in Hsub, Hsl.
  exists (subset_result (s `div` L) (e `div` L) sp (first :: rest) h).1,
    sliced,
    (subset_result (s `div` L) (e `div` L) sp (first :: rest) h).2.
  split; [by rewrite <- surjective_pairing|].
  unfold get_data. by rewrite Hsub, Hsl.
Qed.

Lemma dataset_at_get_data (h : heap) (l d : loc) (sp : string)
    (items : list bytes) :
  get_data l h = Returned (d, sp, items) →
  dataset_at h l = Some {| data := items; split := sp |}.
Proof. intros Hd. unfold dataset_at. by rewrite Hd. Qed.

(** X20. For a dataset with chunks of positive length [L] and chunk
    numbers [0 <= a < b], [get_subset(a*L, b*L, ds)] returns the chunks
    numbered [a] to [b - 1] in order, under the split name of [ds]; an
    end beyond the last chunk is not an error, the result just stops at
    the last chunk. *)
Theorem get_subset_chunk_range (h : heap) (ds d : loc) (sp : string)
    (items : list bytes) (L a b : Z) :
  get_data ds h = Returned (d, sp, items) →
  items ≠ [] →
  Forall (λ chunk, Z.of_nat (length chunk) = L) items →
  (0 < L)%Z → (0 <= a < b)%Z →
  ∃ subset h',
    get_subset (a * L) (b * L) ds h = Returned (subset, h')
    ∧ dataset_at h' subset
      = Some {| data := take (Z.to_nat (b - a)) (drop (Z.to_nat a) items);
                split := sp |}
    ∧ ((b <= Z.of_nat (length items))%Z →
       length (take (Z.to_nat (b - a)) (drop (Z.to_nat a) items))
       = Z.to_nat (b - a)).
Proof.
  intros Hd Hne Hall HL Hab.
  destruct items as [|first rest]; [done|].
  assert (Z.of_nat (length first) = L) as Hfirst
    by (by apply Forall_cons in Hall as [? _]).
  destruct (get_subset_returns_slice (a * L) (b * L) ds d sp first rest h)
    as (subset & sliced & h' & Hrun & Hdata); rewrite ?Hfirst;
    try done; try lia; try (apply Z.mod_mul; lia); try nia.
  rewrite Hfirst, !Z.div_mul, py_slice_nonneg in Hdata by lia.
  exists subset, h'. split; [done|].
  split; [by apply (dataset_at_get_data _ _ sliced)|].
  intros Hb. rewrite length_take, length_drop. lia.
Qed.

(** X21. Rounding a byte budget [B >= L] down to a multiple of the chunk
    length, as the script does for its first 15 MB, always passes the
    assertions: [get_subset(0, B // L * L, ds)] returns the first
    [B // L] chunks, which hold at most [B] bytes. *)
Theorem get_subset_byte_budget (h : heap) (ds d : loc) (sp : string)
    (items : list bytes) (L B : Z) :
  get_data ds h = Returned (d, sp, items) →
  items ≠ [] →
  Forall (λ chunk, Z.of_nat (length chunk) = L) items →
  (0 < L)%Z → (L <= B)%Z →
  ∃ subset h',
    get_subset 0 (B `div` L * L) ds h = Returned (subset, h')
    ∧ dataset_at h' subset
      = Some {| data := take (Z.to_nat (B `div` L)) items; split := sp |}
    ∧ (Z.of_nat (length (concat (take (Z.to_nat (B `div` L)) items)))
       <= B)%Z.
Proof.
  intros Hd Hne Hall HL HB.
  destruct items as [|first rest]; [done|].
  assert (Z.of_nat (length first) = L) as Hfirst
    by (by apply Forall_cons in Hall as [? _]).
  assert (1 <= B `div` L)%Z as Hq.
  { apply Z.div_le_lower_bound; lia. }
  destruct (get_subset_returns_slice 0 (B `div` L * L) ds d sp first rest h)
    as (subset & sliced & h' & Hrun & Hdata); rewrite ?Hfirst;
    try done; try lia; try (apply Z.mod_mul; lia);
    try (apply Z.mod_0_l; lia); try nia.
  rewrite Hfirst, Z.div_mul, Z.div_0_l, py_slice_from_zero in Hdata by lia.
  exists subset, h'. split; [done|].
  split; [by apply (dataset_at_get_data _ _ sliced)|].
  rewrite (concat_length_fixed L).
  - rewrite length_take. pose proof (Z.mul_div_le B L HL). nia.
  - by apply Forall_take.
Qed.

(** X22. Whatever the offsets, the chunks of a dataset [get_subset]
    returns are a run of consecutive chunks of its argument, in order and
    unchanged, under the same split name. *)
Theorem get_subset_returns_contiguous_chunks (s e : Z) (ds : loc) (h : heap)
    (subset : loc) (h' : heap) :
  get_subset s e ds h = Returned (subset, h') →
  ∃ sp items chunks before after,
    dataset_at h ds = Some {| data := items; split := sp |}
    ∧ dataset_at h' subset = Some {| data := chunks; split := sp |}
    ∧ items = before ++ chunks ++ after.
Proof.
  intros Hrun.
  destruct (get_subset_inv s e ds h _ Hrun)
    as (d & sp & first & rest & Hd & HL & Hs & He & Hlt & _).
  destruct (get_subset_returns_slice s e ds d sp first rest h Hd HL Hs He Hlt)
    as (subset' & sliced & h'' & Hrun' & Hdata).
  rewrite Hrun in Hrun'. injection Hrun' as <- <-.
  destruct (py_slice_contiguous (first :: rest)
              (Some (s `div` Z.of_nat (length first))%Z)
              (Some (e `div` Z.of_nat (length first))%Z))
    as (before & after & Hsplit).
  exists sp, (first :: rest),
    (py_slice (first :: rest) (Some (s `div` Z.of_nat (length first))%Z)
       (Some (e `div` Z.of_nat (length first))%Z)), before, after.
  split; [by apply (dataset_at_get_data _ _ d)|].
  split; [by apply (dataset_at_get_data _ _ sliced)|done].
Qed.

(** X23. A negative start is not rejected: with a start below zero that
    is a multiple of [L], and end 0, [get_subset] returns a dataset
    without chunks. *)
Theorem get_subset_negative_start_empty (h : heap) (ds d : loc)
    (sp : string) (items : list bytes) (L s : Z) :
  get_data ds h = Returned (d, sp, items) →
  items ≠ [] →
  Forall (λ chunk, Z.of_nat (length chunk) = L) items →
  (0 < L)%Z → (s < 0)%Z → (s `mod` L = 0)%Z →
  ∃ subset h',
    get_subset s 0 ds h = Returned (subset, h')
    ∧ dataset_at h' subset = Some {| data := []; split := sp |}.
Proof.
  intros Hd Hne Hall HL Hneg Hs.
  destruct items as [|first rest]; [done|].
  assert (Z.of_nat (length first) = L) as Hfirst
    by (by apply Forall_cons in Hall as [? _]).
  destruct (get_subset_returns_slice s 0 ds d sp first rest h)
    as (subset & sliced & h' & Hrun & Hdata); rewrite ?Hfirst;
    try done; try lia; try (apply Z.mod_0_l; lia).
  exists subset, h'. split; [done|].
  rewrite (dataset_at_get_data _ _ sliced _ _ Hdata). do 2 f_equal.
  rewrite Hfirst, Z.div_0_l by lia. unfold py_slice, clamp_bound.
  change (0 <? 0)%Z with false. cbv iota.
  rewrite (Z.min_l 0) by lia.
  set (a := if (s `div` L <? 0)%Z then _ else _).
  assert (0 <= a)%Z.
  { subst a. destruct (Z.ltb_spec (s `div` L) 0); lia. }
  replace (Z.to_nat (0 - a)) with 0 by lia. done.
Qed.

Lemma get_subset_chunks (h : heap) (ds d : loc) (sp : string)
    (items : list bytes) (L a b : Z) :
  get_data ds h = Returned (d, sp, items) →
  items ≠ [] →
  Forall (chunk_ok L) items →
  (0 < L)%Z → (0 <= a < b)%Z →
  ∃ subset sliced h',
    get_subset (a * L) (b * L) ds h = Returned (subset, h')
    ∧ get_data subset h'
      = Returned (sliced, sp,
                  take (Z.to_nat (b - a)) (drop (Z.to_nat a) items)).
Proof.
  intros Hd Hne Hall HL Hab.
  destruct items as [|first rest]; [done|].
  assert (Z.of_nat (length first) = L) as Hfirst
    by (by apply Forall_cons in Hall as [? _]).
  destruct (get_subset_returns_slice (a * L) (b * L) ds d sp first rest h)
    as (subset & sliced & h' & Hrun & Hdata); rewrite ?Hfirst;
    try done; try lia; try (apply Z.mod_mul; lia); try nia.
  rewrite Hfirst, !Z.div_mul, py_slice_nonneg in Hdata by lia.
  by exists subset, sliced, h'.
Qed.

(** X24. Taking a subset of a subset is taking the subset directly: for
    chunk numbers [0 <= a < b] with [a] inside the dataset and
    [0 <= c < d <= b - a], [get_subset(c*L, d*L, ...)] on the result of
    [get_subset(a*L, b*L, ds)] holds the same chunks as
    [get_subset((a+c)*L, (a+d)*L, ds)]. *)
Theorem get_subset_of_subset (h : heap) (ds d : loc) (sp : string)
    (items : list bytes) (L a b c e : Z) (subset1 : loc) (h1 : heap) :
  get_data ds h = Returned (d, sp, items) →
  Forall (λ chunk, Z.of_nat (length chunk) = L) items →
  (0 < L)%Z →
  (0 <= a < b)%Z → (a < Z.of_nat (length items))%Z →
  (0 <= c < e)%Z → (e <= b - a)%Z →
  get_subset (a * L) (b * L) ds h = Returned (subset1, h1) →
  ∃ subset2 h2 subset3 h3,
    get_subset (c * L) (e * L) subset1 h1 = Returned (subset2, h2)
    ∧ get_subset ((a + c) * L) ((a + e) * L) ds h = Returned (subset3, h3)
    ∧ dataset_at h2 subset2 = dataset_at h3 subset3
    ∧ dataset_at h3 subset3
      = Some {| data := take (Z.to_nat (e - c))
                          (drop (Z.to_nat (a + c)) items);
                split := sp |}.
Proof.
  intros Hd Hall HL Hab Han Hce Heb Hrun1.
  assert (items ≠ []) as Hne by (intros ->; cbn in Han; lia).
  destruct (get_subset_chunks h ds d sp items L a b Hd Hne Hall HL Hab)
    as (sub1 & sliced1 & h1' & Hrun1' & Hdata1).
  rewrite Hrun1 in Hrun1'. injection Hrun1' as <- <-.
  set (slice1 := take (Z.to_nat (b - a)) (drop (Z.to_nat a) items)) in *.
  assert (Forall (chunk_ok L) slice1) as Hall1.
  { subst slice1. by apply Forall_take, Forall_drop. }
  assert (slice1 ≠ []) as Hne1.
  { subst slice1. intros Hnil. apply (f_equal length) in Hnil.
    rewrite length_take, length_drop in Hnil. cbn in Hnil. lia. }
  destruct (get_subset_chunks h1 subset1 sliced1 sp slice1 L c e
              Hdata1 Hne1 Hall1 HL Hce)
    as (subset2 & sliced2 & h2 & Hrun2 & Hdata2).
  destruct (get_subset_chunks h ds d sp items L (a + c) (a + e)
              Hd Hne Hall HL ltac:(lia))
    as (subset3 & sliced3 & h3 & Hrun3 & Hdata3).
  exists subset2, h2, subset3, h3. split; [done|]. split; [done|].
  rewrite (dataset_at_get_data _ _ _ _ _ Hdata2).
  rewrite (dataset_at_get_data _ _ _ _ _ Hdata3).
  replace (a + e - (a + c))%Z with (e - c)%Z by lia.
  split; [|done]. do 2 f_equal. subst slice1.
  rewrite skipn_firstn_comm, drop_drop, take_take.
  replace (Z.to_nat (e - c) `min` (Z.to_nat (b - a) - Z.to_nat c))
    with (Z.to_nat (e - c)) by lia.
  by replace (Z.to_nat a + Z.to_nat c) with (Z.to_nat (a + c)) by lia.
Qed.

(** X25. From building to reading: whatever subset [get_subset] returns of
    a split that [create_and_save_dataset] built, every item
    [__getitem__] reads from it has length [sequence_length]. *)
Theorem subset_items_have_sequence_length (fuel : nat) (L : Z)
    (save_path : string) (wiki_data : Wiki40B)
    (fs fs' : gmap string WikipediaDatasets) (datasets : WikipediaDatasets)
    (built : ByteWikipediaDataset) (s e : Z) (ds subset : loc) (h h' : heap)
    (part : ByteWikipediaDataset) (idx : Z) (item : list Z) :
  create_and_save_dataset fuel L save_path wiki_data fs
  = Some (datasets, fs') →
  built ∈ [train datasets; validation datasets; test datasets] →
  dataset_at h ds = Some built →
  get_subset s e ds h = Returned (subset, h') →
  dataset_at h' subset = Some part →
  __getitem__ part idx = Returned item →
  Z.of_nat (length item) = L.
Proof.
  intros Hbuild Hin Hat Hrun Hpart Hitem.
  apply create_and_save_dataset_inv in Hbuild as (Htr & Hva & Hte & _).
  assert (Forall (chunk_ok L) (data built)) as Hall.
  { repeat (apply elem_of_cons in Hin as [->|Hin]);
      [..|by apply elem_of_nil in Hin];
      by eapply process_split_result. }
  destruct (get_subset_inv s e ds h _ Hrun)
    as (d & sp & first & rest & Hd & HL & Hs & He & Hlt & _).
  destruct (get_subset_returns_slice s e ds d sp first rest h Hd HL Hs He Hlt)
    as (subset' & sliced & h'' & Hrun' & Hdata).
  rewrite Hrun in Hrun'. injection Hrun' as <- <-.
  rewrite (dataset_at_get_data _ _ _ _ _ Hd) in Hat. injection Hat as <-.
  rewrite (dataset_at_get_data _ _ _ _ _ Hdata) in Hpart.
  injection Hpart as <-.
  eapply getitem_length; [|exact Hitem]. cbn [data] in *.
  destruct (py_slice_contiguous (first :: rest)
              (Some (s `div` Z.of_nat (length first))%Z)
              (Some (e `div` Z.of_nat (length first))%Z))
    as (before & after & Hsplit).
  rewrite Hsplit in Hall.
  apply Forall_app in Hall as [_ Hall]. by apply Forall_app in Hall as [? _].
Qed.

(** *** The further properties on concrete inputs *)

(** What [create_and_save_dataset] makes of [example_wiki] with chunks of
    four bytes. *)
Definition example_datasets : WikipediaDatasets :=
  {| train := {| data := [ [Byte.x61; Byte.x62; Byte.x63; Byte.x64];
                           [Byte.x65; Byte.x00; Byte.x00; Byte.x00] ];
                 split := "train" |};
     validation := {| data := [ [Byte.x66; Byte.x00; Byte.x00; Byte.x00] ];
                      split := "validation" |};
     test := {| data := []; split := "test" |};
     sequence_length := 4 |}.

(** The bytes of [example_wiki], cut into examples at other places. *)
Definition example_wiki_recut : Wiki40B :=
  {| wiki_train := [ [Byte.x61]; []; [Byte.x62; Byte.x63; Byte.x64; Byte.x65] ];
     wiki_validation := [ [Byte.x66]; [] ];
     wiki_test := [ [] ] |}.

Definition example_store : heap := store_of example_chunks "train".

Example getitem_index_range_example :
  __getitem__ {| data := example_chunks; split := "train" |} (-3)
  = Returned [97; 98]%Z
  ∧ __getitem__ {| data := example_chunks; split := "train" |} (-4)
    = Raised IndexError.
Proof. split; reflexivity. Qed.

Lemma getitem_decodes_to_chunk_witness :
  Forall (λ x, 0 <= x < 256)%Z [99; 100]%Z
  ∧ ∃ chunk, chunk ∈ example_chunks
      ∧ length [99; 100]%Z = length chunk
      ∧ byte_of_value <$> [99; 100]%Z = Some <$> chunk.
Proof.
  apply (getitem_decodes_to_chunk
           {| data := example_chunks; split := "train" |} 1).
  reflexivity.
Defined.

Lemma create_and_save_dataset_chunk_count_witness :
  __len__ (train example_datasets) = ((5 + 4 - 1) `div` 4)%Z.
Proof.
  apply (create_and_save_dataset_chunk_count 6 4 "wiki.pt" example_wiki ∅
           (<["wiki.pt"%string := example_datasets]> ∅) example_datasets
           ltac:(lia) eq_refl (train example_datasets)
           (wiki_train example_wiki)).
  apply list_elem_of_here.
Defined.

Lemma create_and_save_dataset_ignores_example_boundaries_witness :
  example_datasets = example_datasets
  ∧ (<["wiki.pt"%string := example_datasets]> ∅
       : gmap string WikipediaDatasets)
    = <["wiki.pt"%string := example_datasets]> ∅.
Proof.
  apply (create_and_save_dataset_ignores_example_boundaries 6 9 4 "wiki.pt"
           example_wiki example_wiki_recut ∅);
    reflexivity.
Defined.

Lemma create_and_save_dataset_nonpositive_length_witness :
  (wiki_train example_wiki = [] ∧ wiki_validation example_wiki = []
   ∧ wiki_test example_wiki = [] →
   ∃ datasets fs',
     create_and_save_dataset 100 0 "wiki.pt" example_wiki ∅
     = Some (datasets, fs')
     ∧ data (train datasets) = [] ∧ data (validation datasets) = []
     ∧ data (test datasets) = [])
  ∧ (¬ (wiki_train example_wiki = [] ∧ wiki_validation example_wiki = []
        ∧ wiki_test example_wiki = []) →
     create_and_save_dataset 100 0 "wiki.pt" example_wiki ∅ = None).
Proof.
  apply (create_and_save_dataset_nonpositive_length 100 0 "wiki.pt"
           example_wiki ∅).
  lia.
Defined.

(** A [torch.load] that unpickles what was saved, and one that refuses. *)
Definition torch_load_unpickling (stored : WikipediaDatasets)
    : outcome WikipediaDatasets :=
  Returned stored.

Definition torch_load_weights_only (stored : WikipediaDatasets)
    : outcome WikipediaDatasets :=
  Raised UnpicklingError.

Example load_dataset_refused_after_create :
  load_dataset torch_load_weights_only 0 "wiki.pt" 4 example_wiki_recut
    (<["wiki.pt"%string := example_datasets]> ∅)
  = Some (Raised UnpicklingError).
Proof. reflexivity. Qed.

Lemma load_dataset_returns_required_length_witness :
  sequence_length example_datasets = 4%Z
  ∧ ((∃ stored,
        (∅ : gmap string WikipediaDatasets) !! "wiki.pt"%string = Some stored
        ∧ torch_load_unpickling stored = Returned example_datasets
        ∧ (<["wiki.pt"%string := example_datasets]> ∅
             : gmap string WikipediaDatasets) = ∅)
     ∨ create_and_save_dataset 6 4 "wiki.pt" example_wiki ∅
       = Some (example_datasets,
               <["wiki.pt"%string := example_datasets]> ∅)).
Proof.
  apply (load_dataset_returns_required_length torch_load_unpickling 6
           "wiki.pt" 4 example_wiki ∅).
  reflexivity.
Defined.

Lemma load_dataset_after_create_witness :
  (torch_load_unpickling example_datasets = Returned example_datasets →
   ∀ fuel' wiki_data',
     load_dataset torch_load_unpickling fuel' "wiki.pt" 4 wiki_data'
       (<["wiki.pt"%string := example_datasets]> ∅)
     = Some (Returned (example_datasets,
                       <["wiki.pt"%string := example_datasets]> ∅)))
  ∧ (∀ e, torch_load_unpickling example_datasets = Raised e →
     ∀ fuel' wiki_data',
       load_dataset torch_load_unpickling fuel' "wiki.pt" 4 wiki_data'
         (<["wiki.pt"%string := example_datasets]> ∅)
       = Some (Raised e)).
Proof.
  apply (load_dataset_after_create torch_load_unpickling 6 4 "wiki.pt"
           example_wiki ∅).
  reflexivity.
Defined.

Lemma load_dataset_again_witness :
  (∀ fuel' wiki_data',
     load_dataset torch_load_unpickling fuel' "wiki.pt" 4 wiki_data'
       (<["wiki.pt"%string := example_datasets]> ∅)
     = Some (Returned (example_datasets,
                       <["wiki.pt"%string := example_datasets]> ∅)))
  ∧ ∀ fuel' wiki_data' L', L' ≠ 4%Z →
      load_dataset torch_load_unpickling fuel' "wiki.pt" L' wiki_data'
        (<["wiki.pt"%string := example_datasets]> ∅)
      = Returned <$> create_and_save_dataset fuel' L' "wiki.pt" wiki_data'
                       (<["wiki.pt"%string := example_datasets]> ∅).
Proof.
  apply (load_dataset_again torch_load_unpickling 6 4 "wiki.pt"
           example_wiki ∅).
  - reflexivity.
  - reflexivity.
Defined.

Lemma get_subset_chunk_range_witness :
  ∃ subset h',
    get_subset (1 * 2) (3 * 2) 1%positive example_store
    = Returned (subset, h')
    ∧ dataset_at h' subset
      = Some {| data := take (Z.to_nat (3 - 1))
                          (drop (Z.to_nat 1) example_chunks);
                split := "train" |}
    ∧ ((3 <= Z.of_nat (length example_chunks))%Z →
       length (take (Z.to_nat (3 - 1)) (drop (Z.to_nat 1) example_chunks))
       = Z.to_nat (3 - 1)).
Proof.
  apply (get_subset_chunk_range example_store 1 2 "train" example_chunks
           2 1 3).
  - reflexivity.
  - discriminate.
  - repeat constructor.
  - lia.
  - lia.
Defined.

Lemma get_subset_byte_budget_witness :
  ∃ subset h',
    get_subset 0 (5 `div` 2 * 2) 1%positive example_store
    = Returned (subset, h')
    ∧ dataset_at h' subset
      = Some {| data := take (Z.to_nat (5 `div` 2)) example_chunks;
                split := "train" |}
    ∧ (Z.of_nat (length (concat (take (Z.to_nat (5 `div` 2)) example_chunks)))
       <= 5)%Z.
Proof.
  apply (get_subset_byte_budget example_store 1 2 "train" example_chunks
           2 5).
  - reflexivity.
  - discriminate.
  - repeat constructor.
  - lia.
  - lia.
Defined.

Lemma get_subset_returns_contiguous_chunks_witness :
  let r := subset_result 1 3 "train" example_chunks example_store in
  ∃ sp items chunks before after,
    dataset_at example_store 1%positive
    = Some {| data := items; split := sp |}
    ∧ dataset_at r.2 r.1 = Some {| data := chunks; split := sp |}
    ∧ items = before ++ chunks ++ after.
Proof.
  apply (get_subset_returns_contiguous_chunks 2 6 1 example_store).
  by vm_compute.
Defined.

Lemma get_subset_negative_start_empty_witness :
  ∃ subset h',
    get_subset (-4) 0 1%positive example_store = Returned (subset, h')
    ∧ dataset_at h' subset = Some {| data := []; split := "train" |}.
Proof.
  apply (get_subset_negative_start_empty example_store 1 2 "train"
           example_chunks 2 (-4)).
  - reflexivity.
  - discriminate.
  - repeat constructor.
  - lia.
  - lia.
  - reflexivity.
Defined.

Lemma get_subset_of_subset_witness :
  let r := subset_result 0 3 "train" example_chunks example_store in
  ∃ subset2 h2 subset3 h3,
    get_subset (1 * 2) (3 * 2) r.1 r.2 = Returned (subset2, h2)
    ∧ get_subset ((0 + 1) * 2) ((0 + 3) * 2) 1%positive example_store
      = Returned (subset3, h3)
    ∧ dataset_at h2 subset2 = dataset_at h3 subset3
    ∧ dataset_at h3 subset3
      = Some {| data := take (Z.to_nat (3 - 1))
                          (drop (Z.to_nat (0 + 1)) example_chunks);
                split := "train" |}.
Proof.
  apply (get_subset_of_subset example_store 1 2 "train" example_chunks
           2 0 3 1 3).
  - reflexivity.
  - repeat constructor.
  - lia.
  - lia.
  - cbn. lia.
  - lia.
  - lia.
  - by vm_compute.
Defined.

Lemma subset_items_have_sequence_length_witness :
  Z.of_nat (length [97; 98; 99; 100]%Z) = 4%Z.
Proof.
  apply (subset_items_have_sequence_length 6 4 "wiki.pt" example_wiki ∅
           (<["wiki.pt"%string := example_datasets]> ∅) example_datasets
           (train example_datasets) 0 4 1
           (subset_result 0 1 "train" (data (train example_datasets))
              (store_of (data (train example_datasets)) "train")).1
           (store_of (data (train example_datasets)) "train")
           (subset_result 0 1 "train" (data (train example_datasets))
              (store_of (data (train example_datasets)) "train")).2
           {| data := [ [Byte.x61; Byte.x62; Byte.x63; Byte.x64] ];
              split := "train" |}
           0).
  - reflexivity.
  - apply list_elem_of_here.
  - reflexivity.
  - by vm_compute.
  - by vm_compute.
  - reflexivity.
Defined.

End Wiki40BDataset.
